(** * A shallow embedding of scripts/generate-logos.py

    The script reads one source image ([SOURCE_LOGO]), writes six resized
    PNG copies into [PUBLIC_DIR], removes a legacy [favicon.ico] and returns
    a boolean.  The model follows the script statement by statement:

    - paths are lists of components; [parent] and [/] are pathlib's;
    - the filesystem is a finite map from paths to entries (directory or
      file), together with the set of paths at which the process has no
      write permission and a trace of the observable effects (newest first);
    - Python exceptions are the [inr] branch of a state/exception monad [M];
    - Pillow's pixel-level operations ([Image.convert] and the resampling
      kernels of [Image.resize]) are section variables: the script only
      chooses which operation and which filter is applied, and the model
      records exactly that choice. *)

From stdpp Require Import base gmap sets list strings.

Module GenerateLogos.

Abbreviation path := (list string).

(** pathlib's [Path.parent] (the parent of the root is the root). *)
Definition parent (p : path) : path := removelast p.

(** pathlib's [p / name]. *)
Definition join (p : path) (name : string) : path := p ++ [name].

(** ** Pillow's data model *)

(** Image modes of Pillow ([Image.mode]). *)
Inductive Mode :=
  | M_1 | M_L | M_LA | M_La | M_P | M_PA | M_RGB | M_RGBA | M_RGBa
  | M_RGBX | M_CMYK | M_YCbCr | M_LAB | M_HSV | M_I | M_F.

#[global] Instance Mode_eq_dec : EqDecision Mode.
Proof. solve_decision. Defined.

(** Number of bands of a mode ([Image.getbands]). *)
Definition bands (m : Mode) : nat :=
  match m with
  | M_1 | M_L | M_P | M_I | M_F => 1
  | M_LA | M_La | M_PA => 2
  | M_RGB | M_YCbCr | M_LAB | M_HSV => 3
  | M_RGBA | M_RGBa | M_RGBX | M_CMYK => 4
  end.

(** Whether the mode carries an alpha band. *)
Definition has_alpha (m : Mode) : bool :=
  match m with
  | M_LA | M_La | M_PA | M_RGBA | M_RGBa => true
  | _ => false
  end.

(** Modes the PNG encoder accepts ([PngImagePlugin._OUTMODES]). *)
Definition png_supported (m : Mode) : bool :=
  match m with
  | M_1 | M_L | M_LA | M_I | M_P | M_RGB | M_RGBA => true
  | _ => false
  end.

(** [Image.Resampling]. *)
Inductive Resampling := NEAREST | BOX | BILINEAR | HAMMING | BICUBIC | LANCZOS.

#[global] Instance Resampling_eq_dec : EqDecision Resampling.
Proof. solve_decision. Defined.

(** File formats Pillow can decode or encode. *)
Inductive Format := PNG | JPEG | GIF | BMP | ICO | WEBP.

#[global] Instance Format_eq_dec : EqDecision Format.
Proof. solve_decision. Defined.

(** Python exceptions raised along the script's paths. *)
Inductive Exn :=
  | FileNotFoundError (p : path)
  | FileExistsError (p : path)
  | NotADirectoryError (p : path)
  | IsADirectoryError (p : path)
  | PermissionError (p : path)
  | UnidentifiedImageError (p : path)
  | EncodeError (m : Mode) (f : Format).

Section Script.

(** Pixel data and Pillow's pixel-level operations. *)
Variable Pixels : Type.

Record Image := mkImage {
  width : nat;
  height : nat;
  mode : Mode;
  data : Pixels
}.

(** [convert_px from to px]: the pixels of [Image.convert]. *)
Variable convert_px : Mode -> Mode -> Pixels -> Pixels.
(** [resample filter w h img]: the pixels of [Image.resize((w, h), filter)]. *)
Variable resample : Resampling -> nat -> nat -> Image -> Pixels.

(** [img.convert(m)] *)
Definition convert (img : Image) (m : Mode) : Image :=
  mkImage (width img) (height img) m (convert_px (mode img) m (data img)).

(** [img.resize((w, h), filter)] *)
Definition resize (img : Image) (wh : nat * nat) (filter : Resampling) : Image :=
  mkImage wh.1 wh.2 (mode img) (resample filter wh.1 wh.2 img).

(** ** Filesystem and effects *)

(** The content of a file: an image encoded in some format, or bytes that
    no decoder recognises ([Image.open] cannot identify them).  A file
    whose format is identified but whose pixel data fails to decode later
    (a truncated PNG) is not represented: an identified file is taken to
    decode. *)
Inductive Content :=
  | Encoded (fmt : Format) (img : Image)
  | Garbage.

Inductive Entry :=
  | Dir
  | File (c : Content).

(** Lines printed by the script. *)
Inductive Msg :=
  | MsgSourceNotFound (p : path)
  | MsgLoading (p : path)
  | MsgSourceSize (w h : nat) (m : Mode)
  | MsgGenerated (filename : string) (size : nat)
  | MsgDeletedIco
  | MsgDone (n : nat) (dir : path).

(** Observable effects. *)
Inductive Event :=
  | Print (m : Msg)
  | Mkdir (p : path)
  | Write (p : path)
  | Unlink (p : path).

Record FS := mkFS {
  files : gmap path Entry;
  locked : gset path;
  trace : list Event
}.

Definition set_files (s : FS) (fs : gmap path Entry) : FS :=
  mkFS fs (locked s) (trace s).

Definition log (s : FS) (e : Event) : FS :=
  mkFS (files s) (locked s) (e :: trace s).

(** The entry at a path; the root always exists and is a directory. *)
Definition lookup_entry (s : FS) (p : path) : option Entry :=
  match p with
  | [] => Some Dir
  | _ => files s !! p
  end.

(** State and exception monad. *)
Definition M (A : Type) : Type := FS -> (A + Exn) * FS.

#[global] Instance M_ret : MRet M := fun A x s => (inl x, s).
#[global] Instance M_bind : MBind M := fun A B f m s =>
  match m s with
  | (inl x, s') => f x s'
  | (inr e, s') => (inr e, s')
  end.

Definition raise {A} (e : Exn) : M A := fun s => (inr e, s).

Definition print (m : Msg) : M unit := fun s => (inl tt, log s (Print m)).

(** [Path.exists()] *)
Definition path_exists (p : path) : M bool :=
  fun s => (inl (bool_decide (is_Some (lookup_entry s p))), s).

(** [Path.is_dir()] *)
Definition is_dir (s : FS) (p : path) : bool :=
  match lookup_entry s p with Some Dir => true | _ => false end.

(** [os.mkdir(p)] *)
Definition os_mkdir (p : path) : M unit := fun s =>
  match lookup_entry s p with
  | Some _ => (inr (FileExistsError p), s)
  | None =>
      match lookup_entry s (parent p) with
      | None => (inr (FileNotFoundError p), s)
      | Some (File _) => (inr (NotADirectoryError p), s)
      | Some Dir =>
          if decide (p ∈ locked s) then (inr (PermissionError p), s)
          else (inl tt, log (set_files s (<[p := Dir]> (files s))) (Mkdir p))
      end
  end.

(** [p.mkdir(parents=False, exist_ok=True)] *)
Definition mkdir_exist_ok (p : path) : M unit := fun s =>
  match os_mkdir p s with
  | (inl _, s') => (inl tt, s')
  | (inr (FileNotFoundError q), s') => (inr (FileNotFoundError q), s')
  | (inr e, s') => if is_dir s' p then (inl tt, s') else (inr e, s')
  end.

(** [p.mkdir(parents=True, exist_ok=True)], by recursion on the reversed
    path [rp] (so that [rev rp'] is the parent of [rev (x :: rp')]). *)
Fixpoint mkdir_parents_rev (rp : list string) : M unit := fun s =>
  match os_mkdir (rev rp) s with
  | (inl _, s') => (inl tt, s')
  | (inr (FileNotFoundError q), s') =>
      match rp with
      | [] => (inr (FileNotFoundError q), s')
      | _ :: rp' => (mkdir_parents_rev rp' ;; mkdir_exist_ok (rev rp)) s'
      end
  | (inr e, s') => if is_dir s' (rev rp) then (inl tt, s') else (inr e, s')
  end.

Definition mkdir_parents (p : path) : M unit := mkdir_parents_rev (rev p).

(** [Image.open(p)] (decoding is forced by the first use of the image). *)
Definition image_open (p : path) : M Image := fun s =>
  match lookup_entry s p with
  | None => (inr (FileNotFoundError p), s)
  | Some Dir => (inr (IsADirectoryError p), s)
  | Some (File Garbage) => (inr (UnidentifiedImageError p), s)
  | Some (File (Encoded _ img)) => (inl img, s)
  end.

(** [builtins.open(p, "w+b")] *)
Definition open_for_write (p : path) : M unit := fun s =>
  match lookup_entry s p with
  | Some Dir => (inr (IsADirectoryError p), s)
  | _ =>
      match lookup_entry s (parent p) with
      | None => (inr (FileNotFoundError p), s)
      | Some (File _) => (inr (NotADirectoryError p), s)
      | Some Dir =>
          if decide (p ∈ locked s) then (inr (PermissionError p), s)
          else (inl tt, set_files s (<[p := File Garbage]> (files s)))
      end
  end.

(** [img.save(p, fmt)]: Pillow records whether the file is new, opens it
    (truncating), runs the encoder, and on an encoder error removes the
    file it created before re-raising.  Only PNG is encoded here. *)
Definition image_save (img : Image) (p : path) (fmt : Format) : M unit := fun s =>
  let created := match lookup_entry s p with None => true | Some _ => false end in
  match open_for_write p s with
  | (inr e, s') => (inr e, s')
  | (inl _, s') =>
      if (bool_decide (fmt = PNG) && png_supported (mode img))%bool then
        (inl tt, log (set_files s' (<[p := File (Encoded fmt img)]> (files s'))) (Write p))
      else if created then (inr (EncodeError (mode img) fmt), set_files s' (delete p (files s')))
      else (inr (EncodeError (mode img) fmt), s')
  end.

(** [Path.unlink()] *)
Definition path_unlink (p : path) : M unit := fun s =>
  match lookup_entry s p with
  | None => (inr (FileNotFoundError p), s)
  | Some Dir => (inr (IsADirectoryError p), s)
  | Some (File _) =>
      if decide (p ∈ locked s) then (inr (PermissionError p), s)
      else (inl tt, log (set_files s (delete p (files s))) (Unlink p))
  end.

(** ** The script *)

(** The path of the script file itself ([__file__]). *)
Variable script_file : path.

(** [SOURCE_LOGO = Path(__file__).parent.parent / "logo.png"] *)
Definition SOURCE_LOGO : path := join (parent (parent script_file)) "logo.png".

(** [PUBLIC_DIR = Path(__file__).parent.parent / "public"] *)
Definition PUBLIC_DIR : path := join (parent (parent script_file)) "public".

(** [SIZES], in dict order. *)
Definition SIZES : list (string * nat) :=
  [("logo-32.png", 32); ("logo-64.png", 64); ("logo-128.png", 128);
   ("logo-192.png", 192); ("logo-512.png", 512); ("favicon.png", 32)].

(** The loop [for filename, size in SIZES.items(): ...], over a table. *)
Fixpoint save_sizes (img : Image) (sizes : list (string * nat))
    (generated : list (string * nat)) : M (list (string * nat)) :=
  match sizes with
  | [] => mret generated
  | (filename, size) :: rest =>
      let output_path := join PUBLIC_DIR filename in
      let resized := resize img (size, size) LANCZOS in
      image_save resized output_path PNG ;;
      generated' ← mret (generated ++ [(filename, size)]);
      print (MsgGenerated filename size) ;;
      save_sizes img rest generated'
  end.

(** [if img.mode != 'RGBA': img = img.convert('RGBA')] *)
Definition to_rgba (img : Image) : Image :=
  if decide (mode img ≠ M_RGBA) then convert img M_RGBA else img.

Definition OLD_ICO : path := join PUBLIC_DIR "favicon.ico".

(** [generate_logos()] *)
Definition generate_logos : M bool :=
  src_exists ← path_exists SOURCE_LOGO;
  if negb src_exists then
    print (MsgSourceNotFound SOURCE_LOGO) ;; mret false
  else
    mkdir_parents PUBLIC_DIR ;;
    print (MsgLoading SOURCE_LOGO) ;;
    img0 ← image_open SOURCE_LOGO;
    let img := to_rgba img0 in
    print (MsgSourceSize (width img) (height img) (mode img)) ;;
    generated ← save_sizes img SIZES [];
    old_ico_exists ← path_exists OLD_ICO;
    (if (old_ico_exists : bool) then path_unlink OLD_ICO ;; print MsgDeletedIco
     else mret tt) ;;
    print (MsgDone (length generated) PUBLIC_DIR) ;;
    mret true.

(** [if __name__ == "__main__": generate_logos()] *)
Definition main : M unit := generate_logos ;; mret tt.

(** Exit status of the interpreter: 0 when the module body finishes,
    1 when an exception escapes it. *)
Definition exit_status {A} (r : A + Exn) : nat :=
  match r with
  | inl _ => 0
  | inr _ => 1
  end.

Definition run_main (s : FS) : nat := exit_status (main s).1.

(** ** Reading aids for the statements *)

(** The file written for the table entry of edge length [size]. *)
Definition out_entry (img : Image) (size : nat) : Entry :=
  File (Encoded PNG (resize img (size, size) LANCZOS)).

(** Files after the loop has written every entry of [tbl]. *)
Fixpoint write_outputs (img : Image) (tbl : list (string * nat))
    (m : gmap path Entry) : gmap path Entry :=
  match tbl with
  | [] => m
  | (filename, size) :: rest =>
      write_outputs img rest (<[join PUBLIC_DIR filename := out_entry img size]> m)
  end.

(** Trace after the loop (newest first). *)
Fixpoint loop_trace (tbl : list (string * nat)) (tr : list Event) : list Event :=
  match tbl with
  | [] => tr
  | (filename, size) :: rest =>
      loop_trace rest (Print (MsgGenerated filename size) :: Write (join PUBLIC_DIR filename) :: tr)
  end.

(** What the loop needs to write every entry: the output directory exists
    and each output path is writable and not a directory. *)
Definition loop_ready (s : FS) (tbl : list (string * nat)) : Prop :=
  lookup_entry s PUBLIC_DIR = Some Dir /\
  forall filename size, In (filename, size) tbl ->
    (join PUBLIC_DIR filename ∉ locked s) /\
    lookup_entry s (join PUBLIC_DIR filename) <> Some Dir.

(** What [mkdir(parents=True)] may do to the tree: it creates directories
    at prefixes of [p] that were absent, and nothing else. *)
Definition mkdir_effect (p : path) (s s1 : FS) : Prop :=
  locked s1 = locked s /\
  forall q, lookup_entry s1 q = lookup_entry s q \/
            (lookup_entry s q = None /\ lookup_entry s1 q = Some Dir /\ prefix q p).

(** The environment in which a run can complete: the source holds a
    decodable image, every prefix of the output directory is a directory or
    is absent and creatable (or the directory is already there), every output path is writable and not a
    directory, and a legacy [favicon.ico], if present, is a removable file. *)
Definition run_ready (s : FS) : Prop :=
  (exists fmt src, lookup_entry s SOURCE_LOGO = Some (File (Encoded fmt src))) /\
  (lookup_entry s PUBLIC_DIR = Some Dir \/
   forall q, prefix q PUBLIC_DIR ->
     lookup_entry s q = Some Dir \/ (lookup_entry s q = None /\ q ∉ locked s)) /\
  (forall f sz, In (f, sz) SIZES ->
     (join PUBLIC_DIR f ∉ locked s) /\ lookup_entry s (join PUBLIC_DIR f) <> Some Dir) /\
  (lookup_entry s OLD_ICO = None \/
   exists c, lookup_entry s OLD_ICO = Some (File c) /\ OLD_ICO ∉ locked s).

(** A path written by the loop: [PUBLIC_DIR / filename] for an entry of [SIZES]. *)
Definition out_path (q : path) : Prop :=
  exists f sz, In (f, sz) SIZES /\ q = join PUBLIC_DIR f.

(** What a run may have done between [s] and [s']: permissions are as they
    were, and each path is as it was, or is a directory created where
    nothing was on the way to [PUBLIC_DIR], or is an output path or the
    legacy icon. *)
Definition run_effect (s s' : FS) : Prop :=
  locked s' = locked s /\
  forall q, lookup_entry s' q = lookup_entry s q \/
    (lookup_entry s q = None /\ lookup_entry s' q = Some Dir /\ prefix q PUBLIC_DIR) \/
    out_path q \/ q = OLD_ICO.

(** A computation that, continuing a run started in [s0], stays within
    [run_effect s0]. *)
Definition keeps {A} (m : M A) : Prop :=
  forall s0 s r s', run_effect s0 s -> m s = (r, s') -> run_effect s0 s'.

(** A computation none of whose exceptions is an encoder error. *)
Definition no_encode_error {A} (m : M A) : Prop :=
  forall s e s', m s = (inr e, s') -> forall md fmt, e <> EncodeError md fmt.

(** ** Basic facts *)

Lemma join_not_nil p f : join p f <> [].
Proof. unfold join. destruct p; discriminate. Qed.

Lemma lookup_entry_join s p f : lookup_entry s (join p f) = files s !! join p f.
Proof. unfold lookup_entry. destruct (join p f) eqn:E; [by apply join_not_nil in E|done]. Qed.

Lemma parent_join p f : parent (join p f) = p.
Proof. apply removelast_last. Qed.

Lemma join_inj p f g : join p f = join p g -> f = g.
Proof. unfold join. intros H. apply app_inj_tail in H. by destruct H as [_ [=]]. Qed.

Lemma length_join p f : length (join p f) = S (length p).
Proof. unfold join. rewrite length_app. simpl. lia. Qed.

Lemma out_ne_public f : join PUBLIC_DIR f <> PUBLIC_DIR.
Proof. intros H. apply (f_equal length) in H. rewrite length_join in H. lia. Qed.

Lemma out_ne_source f : join PUBLIC_DIR f <> SOURCE_LOGO.
Proof.
  intros H. apply (f_equal length) in H.
  unfold SOURCE_LOGO, PUBLIC_DIR in H. rewrite !length_join in H. lia.
Qed.

Lemma ico_ne_source : OLD_ICO <> SOURCE_LOGO.
Proof. apply out_ne_source. Qed.

Lemma to_rgba_mode img : mode (to_rgba img) = M_RGBA.
Proof.
  unfold to_rgba. case_decide as H; [done|].
  destruct (decide (mode img = M_RGBA)); tauto.
Qed.

Lemma lookup_entry_log s e p : lookup_entry (log s e) p = lookup_entry s p.
Proof. by destruct p. Qed.

Lemma lookup_entry_insert_ne s q v p :
  p <> q -> lookup_entry (set_files s (<[q := v]> (files s))) p = lookup_entry s p.
Proof. intros H. destruct p; [done|]. simpl. by rewrite lookup_insert_ne. Qed.

Lemma lookup_entry_insert_eq s q v :
  q <> [] -> lookup_entry (set_files s (<[q := v]> (files s))) q = Some v.
Proof. intros H. destruct q; [done|]. simpl. by rewrite lookup_insert_eq. Qed.

Lemma lookup_entry_delete_ne s q p :
  p <> q -> lookup_entry (set_files s (delete q (files s))) p = lookup_entry s p.
Proof. intros H. destruct p; [done|]. simpl. by rewrite lookup_delete_ne. Qed.

Lemma lookup_entry_delete_eq s q :
  q <> [] -> lookup_entry (set_files s (delete q (files s))) q = None.
Proof. intros H. destruct q; [done|]. simpl. by rewrite lookup_delete_eq. Qed.

Lemma to_rgba_mode_png img : png_supported (mode (to_rgba img)) = true.
Proof. by rewrite to_rgba_mode. Qed.

Lemma bind_inl {A B} (m : M A) (k : A -> M B) s x s' :
  m s = (inl x, s') -> (m ≫= k) s = k x s'.
Proof. intros E. unfold mbind, M_bind. by rewrite E. Qed.

Lemma bind_inr {A B} (m : M A) (k : A -> M B) s e s' :
  m s = (inr e, s') -> (m ≫= k) s = (inr e, s').
Proof. intros E. unfold mbind, M_bind. by rewrite E. Qed.

(** ** The loop *)

Lemma image_save_ok img p s :
  lookup_entry s (parent p) = Some Dir -> p ∉ locked s ->
  lookup_entry s p <> Some Dir -> png_supported (mode img) = true ->
  image_save img p PNG s =
    (inl tt, log (set_files s (<[p := File (Encoded PNG img)]> (files s))) (Write p)).
Proof.
  intros Hpar Hlk Hdir Hpng. unfold image_save, open_for_write.
  destruct (lookup_entry s p) as [[|c]|] eqn:Ep; [congruence| |];
    rewrite Hpar, decide_False by done; simpl; rewrite Hpng; simpl;
    unfold log, set_files; simpl; by rewrite insert_insert_eq.
Qed.

Lemma save_sizes_ok img tbl gen s :
  png_supported (mode img) = true -> loop_ready s tbl ->
  save_sizes img tbl gen s =
    (inl (gen ++ tbl),
     mkFS (write_outputs img tbl (files s)) (locked s) (loop_trace tbl (trace s))).
Proof.
  revert gen s. induction tbl as [|[f sz] rest IH]; intros gen s Hpng [Hpub Hall].
  - simpl. rewrite app_nil_r. by destruct s.
  - simpl. destruct (Hall f sz) as [Hlk Hdir]; [by left|].
    erewrite bind_inl; [|apply image_save_ok; rewrite ?parent_join; done].
    cbv beta iota delta [mbind M_bind mret M_ret print].
    rewrite (IH (gen ++ [(f, sz)])); [by rewrite <- app_assoc|done|].
    split.
    + by rewrite !lookup_entry_log, lookup_entry_insert_ne by apply not_eq_sym, out_ne_public.
    + intros f' sz' Hin. destruct (Hall f' sz') as [Hlk' Hdir']; [by right|].
      split; [done|]. rewrite !lookup_entry_log.
      destruct (decide (join PUBLIC_DIR f' = join PUBLIC_DIR f)) as [->|Hne].
      * by rewrite lookup_entry_insert_eq by apply join_not_nil.
      * by rewrite lookup_entry_insert_ne.
Qed.

Lemma image_save_inv img p fmt s u s1 :
  image_save img p fmt s = (inl u, s1) ->
  lookup_entry s (parent p) = Some Dir /\ (p ∉ locked s) /\
  lookup_entry s p <> Some Dir /\ fmt = PNG /\ png_supported (mode img) = true /\
  s1 = log (set_files s (<[p := File (Encoded fmt img)]> (files s))) (Write p).
Proof.
  unfold image_save, open_for_write.
  destruct (lookup_entry s p) as [[|c]|] eqn:Ep; [congruence| |];
    (destruct (lookup_entry s (parent p)) as [[|c']|] eqn:Epar; [|congruence..]);
    (case_decide as Hlk; [congruence|]); simpl;
    (destruct (bool_decide (fmt = PNG)) eqn:Hf; simpl;
      [|destruct (png_supported (mode img)); simpl; congruence]);
    (destruct (png_supported (mode img)) eqn:Hp; [|congruence]);
    apply bool_decide_eq_true in Hf; subst;
    intros [= _ <-]; unfold log, set_files; simpl; rewrite insert_insert_eq;
    repeat split; congruence.
Qed.

Lemma save_sizes_inv img tbl gen s r s' :
  save_sizes img tbl gen s = (inl r, s') -> tbl <> [] ->
  png_supported (mode img) = true /\ loop_ready s tbl.
Proof.
  revert gen s. induction tbl as [|[f sz] rest IH]; intros gen s Hrun Hne; [done|].
  simpl in Hrun. cbv beta iota delta [mbind M_bind] in Hrun.
  destruct (image_save _ _ _ s) as [[u|e] s1] eqn:Hsave; [|discriminate].
  apply image_save_inv in Hsave as (Hpar & Hlk & Hdir & _ & Hpng & ->).
  rewrite parent_join in Hpar.
  split; [done|]. split; [done|].
  intros f' sz' [[= <- <-]|Hin]; [done|].
  destruct rest as [|e rest]; [done|].
  cbv beta iota delta [mret M_ret print] in Hrun.
  destruct (IH _ _ Hrun) as [_ [_ Hall]]; [done|].
  destruct (Hall f' sz' Hin) as [Hlk' Hdir']. split; [done|].
  rewrite !lookup_entry_log in Hdir'.
  destruct (decide (join PUBLIC_DIR f' = join PUBLIC_DIR f)) as [->|Hne']; [done|].
  by rewrite lookup_entry_insert_ne in Hdir'.
Qed.

(** ** Creating the output directory *)


Lemma mkdir_effect_refl p s : mkdir_effect p s s.
Proof. split; [done|]. intros q. by left. Qed.

Lemma mkdir_effect_trans p s1 s2 s3 :
  mkdir_effect p s1 s2 -> mkdir_effect p s2 s3 -> mkdir_effect p s1 s3.
Proof.
  intros [Hl1 H1] [Hl2 H2]. split; [congruence|]. intros q.
  destruct (H1 q) as [E1|(N1 & D1 & P1)], (H2 q) as [E2|(N2 & D2 & P2)].
  - left. congruence.
  - right. rewrite <- E1. done.
  - right. rewrite E2. done.
  - congruence.
Qed.

Lemma mkdir_effect_mono p p' s s1 :
  prefix p p' -> mkdir_effect p s s1 -> mkdir_effect p' s s1.
Proof.
  intros Hp [Hl H]. split; [done|]. intros q.
  destruct (H q) as [E|(N & D & P)]; [by left|]. right. repeat split; try done.
  by trans p.
Qed.

Lemma os_mkdir_effect p s r s1 : os_mkdir p s = (r, s1) -> mkdir_effect p s s1.
Proof.
  unfold os_mkdir.
  destruct (lookup_entry s p) eqn:Ep; [intros [= _ <-]; apply mkdir_effect_refl|].
  destruct (lookup_entry s (parent p)) as [[|c]|];
    [|intros [= _ <-]; apply mkdir_effect_refl..].
  case_decide; [intros [= _ <-]; apply mkdir_effect_refl|].
  intros [= _ <-]. split; [done|]. intros q. rewrite lookup_entry_log.
  destruct (decide (q = p)) as [->|Hne].
  - right. rewrite lookup_entry_insert_eq; [done|]. intros ->. done.
  - left. by apply lookup_entry_insert_ne.
Qed.

Lemma mkdir_exist_ok_effect p s r s1 : mkdir_exist_ok p s = (r, s1) -> mkdir_effect p s s1.
Proof.
  unfold mkdir_exist_ok.
  destruct (os_mkdir p s) as [r0 s0] eqn:E. apply os_mkdir_effect in E.
  destruct r0 as [u|[]]; try (intros [= _ <-]; done);
    destruct (is_dir s0 p); intros [= _ <-]; done.
Qed.

Lemma mkdir_parents_rev_effect rp s r s1 :
  mkdir_parents_rev rp s = (r, s1) -> mkdir_effect (rev rp) s s1.
Proof.
  revert s r s1. induction rp as [|x rp IH]; intros s r s1 Hrun;
    simpl mkdir_parents_rev in Hrun.
  - injection Hrun as _ <-. apply mkdir_effect_refl.
  - match type of Hrun with context [os_mkdir ?p s] =>
      destruct (os_mkdir p s) as [r0 s0] eqn:E end.
    apply os_mkdir_effect in E.
    destruct r0 as [u|[]]; try (injection Hrun as _ <-; done);
      try (revert Hrun; match goal with |- context [is_dir s0 ?p] => destruct (is_dir s0 p) end;
        intros [= _ <-]; done).
    cbv beta iota delta [mbind M_bind] in Hrun.
    destruct (mkdir_parents_rev rp s0) as [[u|e] s2] eqn:E2;
      apply IH in E2; apply (mkdir_effect_mono _ (rev (x :: rp))) in E2;
      try (simpl; by apply prefix_app_r).
    + apply mkdir_exist_ok_effect in Hrun.
      eapply mkdir_effect_trans; [done|]. by eapply mkdir_effect_trans.
    + injection Hrun as _ <-. by eapply mkdir_effect_trans.
Qed.


Lemma mkdir_parents_effect p s r s1 : mkdir_parents p s = (r, s1) -> mkdir_effect p s s1.
Proof. unfold mkdir_parents. intros H. apply mkdir_parents_rev_effect in H. by rewrite rev_involutive in H. Qed.

(** When the directory is already there, [mkdir(parents=True, exist_ok=True)]
    returns normally and changes nothing. *)
Lemma mkdir_parents_existing p s :
  lookup_entry s p = Some Dir -> mkdir_parents p s = (inl tt, s).
Proof.
  intros H. unfold mkdir_parents.
  assert (E : os_mkdir (rev (rev p)) s = (inr (FileExistsError (rev (rev p))), s)).
  { unfold os_mkdir. by rewrite rev_involutive, H. }
  assert (D : is_dir s (rev (rev p)) = true).
  { unfold is_dir. by rewrite rev_involutive, H. }
  destruct (rev p) as [|x rp]; [done|].
  simpl mkdir_parents_rev. simpl rev in E, D. by rewrite E, D.
Qed.


Lemma mkdir_parents_rev_cons x rp s :
  mkdir_parents_rev (x :: rp) s =
    match os_mkdir (rev (x :: rp)) s with
    | (inl _, s') => (inl tt, s')
    | (inr (FileNotFoundError q), s') => (mkdir_parents_rev rp ;; mkdir_exist_ok (rev (x :: rp))) s'
    | (inr e, s') => if is_dir s' (rev (x :: rp)) then (inl tt, s') else (inr e, s')
    end.
Proof. reflexivity. Qed.

Lemma os_mkdir_create p s :
  lookup_entry s p = None -> lookup_entry s (parent p) = Some Dir -> p ∉ locked s ->
  os_mkdir p s = (inl tt, log (set_files s (<[p := Dir]> (files s))) (Mkdir p)).
Proof. intros H1 H2 H3. unfold os_mkdir. rewrite H1, H2. by rewrite decide_False. Qed.

Lemma parent_rev_cons x rp : parent (rev (x :: rp)) = rev rp.
Proof. apply removelast_last. Qed.

Lemma prefix_length_le (q p : path) : prefix q p -> length q <= length p.
Proof. intros [k ->]. rewrite length_app. lia. Qed.

(** [mkdir(parents=True, exist_ok=True)] returns normally and leaves a
    directory at [p] when every prefix of [p] is a directory or is absent
    and creatable. *)
Lemma mkdir_parents_rev_ok rp s :
  (forall q, prefix q (rev rp) ->
     lookup_entry s q = Some Dir \/ (lookup_entry s q = None /\ q ∉ locked s)) ->
  exists s1, mkdir_parents_rev rp s = (inl tt, s1) /\ lookup_entry s1 (rev rp) = Some Dir.
Proof.
  revert s. induction rp as [|x rp IH]; intros s Hpre; [by exists s|].
  rewrite mkdir_parents_rev_cons.
  destruct (Hpre (rev (x :: rp)) ltac:(reflexivity)) as [Hd|[Hn Hlk]].
  { exists s. unfold os_mkdir, is_dir. rewrite Hd. cbn iota. by rewrite Hd. }
  assert (Hpar : forall q, prefix q (rev rp) ->
     lookup_entry s q = Some Dir \/ (lookup_entry s q = None /\ q ∉ locked s)).
  { intros q Hq. apply Hpre. trans (rev rp); [done|]. simpl. by apply prefix_app_r. }
  destruct (Hpar (rev rp) ltac:(reflexivity)) as [Hpd|[Hpn Hplk]].
  - exists (log (set_files s (<[rev (x :: rp) := Dir]> (files s))) (Mkdir (rev (x :: rp)))).
    rewrite os_mkdir_create; [|done|by rewrite parent_rev_cons|done].
    split; [done|]. rewrite lookup_entry_log, lookup_entry_insert_eq; [done|].
    simpl. by destruct (rev rp).
  - assert (E : os_mkdir (rev (x :: rp)) s = (inr (FileNotFoundError (rev (x :: rp))), s)).
    { unfold os_mkdir. rewrite Hn, parent_rev_cons. by rewrite Hpn. }
    rewrite E. destruct (IH s Hpar) as (s2 & E2 & Hd2).
    cbv beta iota delta [mbind M_bind]. rewrite E2.
    pose proof (mkdir_parents_rev_effect _ _ _ _ E2) as [Hl2 Heff].
    assert (Hn2 : lookup_entry s2 (rev (x :: rp)) = None).
    { destruct (Heff (rev (x :: rp))) as [->|(_ & _ & Hp)]; [done|].
      apply prefix_length_le in Hp. simpl in Hp. rewrite length_app in Hp. simpl in Hp. lia. }
    unfold mkdir_exist_ok. rewrite os_mkdir_create; [|done|by rewrite parent_rev_cons|by rewrite Hl2].
    eexists. split; [done|]. rewrite lookup_entry_log, lookup_entry_insert_eq; [done|].
    simpl. by destruct (rev rp).
Qed.

(** ** The whole run *)

Lemma write_outputs_notin img tbl m q :
  (forall f sz, In (f, sz) tbl -> q <> join PUBLIC_DIR f) ->
  write_outputs img tbl m !! q = m !! q.
Proof.
  revert m. induction tbl as [|[f sz] rest IH]; intros m Hq; [done|]. simpl.
  rewrite IH; [|intros f' sz' Hin; apply (Hq f' sz'); by right].
  apply lookup_insert_ne. apply not_eq_sym, (Hq f sz). by left.
Qed.

Lemma write_outputs_in img tbl m f sz :
  NoDup (map fst tbl) -> In (f, sz) tbl ->
  write_outputs img tbl m !! join PUBLIC_DIR f = Some (out_entry img sz).
Proof.
  revert m. induction tbl as [|[f0 sz0] rest IH]; intros m Hnd Hin; [done|].
  simpl in *. inversion Hnd as [|? ? Hnotin Hnd']; subst.
  destruct Hin as [[= -> ->]|Hin]; [|by apply IH].
  rewrite write_outputs_notin; [by rewrite lookup_insert_eq|].
  intros f' sz' Hin' E. apply join_inj in E as ->.
  apply Hnotin. apply list_elem_of_In, in_map_iff. by exists (f', sz').
Qed.

Lemma out_path_cases (tbl : list (string * nat)) q :
  (exists f sz, In (f, sz) tbl /\ q = join PUBLIC_DIR f) \/
  (forall f sz, In (f, sz) tbl -> q <> join PUBLIC_DIR f).
Proof.
  induction tbl as [|[f0 sz0] rest [(f & sz & Hin & E)|Hno]].
  - right. by intros ? ? [].
  - left. exists f, sz. split; [by right|done].
  - destruct (decide (q = join PUBLIC_DIR f0)) as [E|Hne].
    + left. exists f0, sz0. split; [by left|done].
    + right. intros f sz [[= <- <-]|Hin]; [done|]. by apply (Hno f sz).
Qed.

Lemma SIZES_nodup : NoDup (map fst SIZES).
Proof. apply (bool_decide_unpack _). by vm_compute. Qed.

Lemma ico_not_output f sz : In (f, sz) SIZES -> OLD_ICO <> join PUBLIC_DIR f.
Proof.
  unfold OLD_ICO. intros Hin E. apply join_inj in E as <-.
  simpl in Hin. intuition congruence.
Qed.

Lemma loop_ready_log s e tbl : loop_ready (log s e) tbl <-> loop_ready s tbl.
Proof. unfold loop_ready. by rewrite !lookup_entry_log. Qed.

Lemma lookup_entry_mkFS m l t q :
  q <> [] -> lookup_entry (mkFS m l t) q = m !! q.
Proof. by destruct q. Qed.

(** Every run that returns [True]: the source held a decodable image, the
    output directory was prepared, every table entry was written from the
    converted source, and the legacy file was removed if it was there. *)
Lemma generate_logos_true_inv s s' :
  generate_logos s = (inl true, s') ->
  exists fmt src s1,
    lookup_entry s SOURCE_LOGO = Some (File (Encoded fmt src)) /\
    mkdir_parents PUBLIC_DIR s = (inl tt, s1) /\
    loop_ready s1 SIZES /\
    (forall e, lookup_entry s1 OLD_ICO = Some e ->
       exists c, e = File c /\ OLD_ICO ∉ locked s1) /\
    locked s' = locked s /\
    (forall q, q <> [] -> lookup_entry s' q =
       if decide (q = OLD_ICO) then None
       else write_outputs (to_rgba src) SIZES (files s1) !! q) /\
    trace s' =
      Print (MsgDone 6 PUBLIC_DIR) ::
      (if bool_decide (is_Some (lookup_entry s1 OLD_ICO))
       then [Print MsgDeletedIco; Unlink OLD_ICO] else []) ++
      loop_trace SIZES
        (Print (MsgSourceSize (width (to_rgba src)) (height (to_rgba src)) (mode (to_rgba src)))
         :: Print (MsgLoading SOURCE_LOGO) :: trace s1).
Proof.
  unfold generate_logos. remember SIZES as tbl eqn:Htbl.
  cbv beta iota delta [mbind M_bind mret M_ret path_exists print].
  destruct (lookup_entry s SOURCE_LOGO) as [e|] eqn:Hsrc;
    [|rewrite bool_decide_eq_false_2 by (intros [? ?]; discriminate); simpl; congruence].
  rewrite bool_decide_eq_true_2 by done. cbv beta iota delta [negb].
  destruct (mkdir_parents PUBLIC_DIR s) as [[u|ex] s1] eqn:Hmk; [|cbn iota beta; congruence].
  destruct u.
  pose proof (mkdir_parents_effect _ _ _ _ Hmk) as [Hlk1 Heff].
  assert (Hsrc1 : lookup_entry s1 SOURCE_LOGO = Some e).
  { destruct (Heff SOURCE_LOGO) as [->|(? & _ & _)]; congruence. }
  unfold image_open. rewrite lookup_entry_log, Hsrc1.
  destruct e as [|[fmt src|]]; cbn iota beta; [congruence| |congruence].
  match goal with |- context [save_sizes ?i tbl [] ?st] =>
    destruct (save_sizes i tbl [] st) as [[gen|ex] s2] eqn:Hloop; cbn iota beta; [|congruence] end.
  pose proof Hloop as Hloop'.
  apply save_sizes_inv in Hloop' as [Hpng Hready]; [|by rewrite Htbl].
  rewrite save_sizes_ok in Hloop by done. injection Hloop as <- <-.
  cbn [files locked trace log].
  apply loop_ready_log, loop_ready_log in Hready.
  assert (Hico : lookup_entry (mkFS (write_outputs (to_rgba src) tbl (files s1)) (locked s1)
       (loop_trace tbl (Print (MsgSourceSize (width (to_rgba src)) (height (to_rgba src))
         (mode (to_rgba src))) :: Print (MsgLoading SOURCE_LOGO) :: trace s1))) OLD_ICO =
       lookup_entry s1 OLD_ICO).
  { rewrite lookup_entry_mkFS by apply join_not_nil. rewrite write_outputs_notin.
    - unfold OLD_ICO. by rewrite lookup_entry_join.
    - rewrite Htbl; apply ico_not_output. }
  rewrite Hico.
  destruct (lookup_entry s1 OLD_ICO) as [[|c]|] eqn:Hold.
  - rewrite bool_decide_eq_true_2 by done. cbn iota beta.
    unfold path_unlink. rewrite Hico. cbn iota beta. congruence.
  - rewrite bool_decide_eq_true_2 by done. cbn iota beta.
    unfold path_unlink. rewrite Hico. cbn iota beta.
    case_decide as Hlki; cbn iota beta; [congruence|].
    intros [= <-]. exists fmt, src, s1.
    do 3 (split; [done|]). split; [intros e He; rewrite Hold in He; injection He as <-; by exists c|].
    split; [by rewrite Hlk1|]. split.
    + intros q Hq. rewrite !lookup_entry_log. case_decide as Hq'.
      * subst. apply lookup_entry_delete_eq, join_not_nil.
      * rewrite lookup_entry_delete_ne by done. by rewrite lookup_entry_mkFS.
    + rewrite Htbl, Hold. reflexivity.
  - rewrite bool_decide_eq_false_2 by (intros [? ?]; discriminate). cbn iota beta.
    intros [= <-]. exists fmt, src, s1.
    do 3 (split; [done|]). split; [intros e He; rewrite Hold in He; congruence|].
    split; [by rewrite Hlk1|]. split.
    + intros q Hq. rewrite !lookup_entry_log. case_decide as Hq'.
      * subst. by rewrite Hico.
      * by rewrite lookup_entry_mkFS.
    + rewrite Htbl, Hold. reflexivity.
Qed.


Lemma mkdir_effect_longer p s s1 q :
  mkdir_effect p s s1 -> length p < length q -> lookup_entry s1 q = lookup_entry s q.
Proof.
  intros [_ H] Hlen. destruct (H q) as [E|(_ & _ & Hp)]; [done|].
  apply prefix_length_le in Hp. lia.
Qed.

Lemma generate_logos_ok s :
  run_ready s -> exists s', generate_logos s = (inl true, s').
Proof.
  intros ((fmt & src & Hsrc) & Hpre & Hout & Hico).
  unfold generate_logos. remember SIZES as tbl eqn:Htbl.
  cbv beta iota delta [mbind M_bind mret M_ret path_exists print].
  rewrite Hsrc, bool_decide_eq_true_2 by done. cbv beta iota delta [negb].
  assert (Hmk : exists s1, mkdir_parents PUBLIC_DIR s = (inl tt, s1) /\
                 lookup_entry s1 PUBLIC_DIR = Some Dir).
  { destruct Hpre as [Hd|Hpre].
    - exists s. by rewrite mkdir_parents_existing.
    - destruct (mkdir_parents_rev_ok (rev PUBLIC_DIR) s) as (s1 & Hmk & Hpub1).
      { rewrite rev_involutive. done. }
      rewrite rev_involutive in Hpub1. by exists s1. }
  destruct Hmk as (s1 & Hmk & Hpub1).
  pose proof (mkdir_parents_effect _ _ _ _ Hmk) as Heff.
  rewrite Hmk. cbn iota beta.
  pose proof Heff as [Hlk1 Heff'].
  assert (Hsrc1 : lookup_entry s1 SOURCE_LOGO = Some (File (Encoded fmt src))).
  { destruct (Heff' SOURCE_LOGO) as [->|(? & _ & _)]; congruence. }
  unfold image_open. rewrite lookup_entry_log, Hsrc1. cbn iota beta.
  assert (Hlen : forall f, length PUBLIC_DIR < length (join PUBLIC_DIR f)).
  { intros f. rewrite length_join. lia. }
  rewrite save_sizes_ok.
  2: { apply to_rgba_mode_png. }
  2: { apply loop_ready_log, loop_ready_log. split; [done|].
       intros f sz Hin. destruct (Hout f sz Hin) as [Ha Hb].
       rewrite Hlk1. split; [done|]. by rewrite (mkdir_effect_longer _ _ _ _ Heff). }
  cbn iota beta.
  match goal with |- context [lookup_entry ?st OLD_ICO] =>
    assert (Hico1 : lookup_entry st OLD_ICO = lookup_entry s OLD_ICO) end.
  { rewrite lookup_entry_mkFS by apply join_not_nil. rewrite write_outputs_notin.
    - simpl. rewrite <- (mkdir_effect_longer _ _ _ _ Heff) by apply Hlen.
      unfold OLD_ICO. by rewrite lookup_entry_join.
    - rewrite Htbl; apply ico_not_output. }
  rewrite Hico1.
  destruct Hico as [Hn|(c & Hc & Hlk)].
  - rewrite Hn, bool_decide_eq_false_2 by (intros [? ?]; discriminate). cbn iota beta. by eexists.
  - rewrite Hc, bool_decide_eq_true_2 by done. cbn iota beta.
    unfold path_unlink. rewrite Hico1, Hc. cbn iota beta.
    rewrite decide_False; [by eexists|]. simpl. by rewrite Hlk1.
Qed.

Lemma generate_logos_missing s :
  lookup_entry s SOURCE_LOGO = None ->
  generate_logos s = (inl false, log s (Print (MsgSourceNotFound SOURCE_LOGO))).
Proof.
  intros H. unfold generate_logos.
  cbv beta iota delta [mbind M_bind mret M_ret path_exists print].
  by rewrite H, bool_decide_eq_false_2 by (intros [? ?]; discriminate).
Qed.

(** Once the source exists, no normal return carries [False]. *)
Lemma generate_logos_present_not_false s s' :
  lookup_entry s SOURCE_LOGO <> None -> generate_logos s <> (inl false, s').
Proof.
  intros H. unfold generate_logos.
  cbv beta iota delta [mbind M_bind mret M_ret path_exists print].
  rewrite bool_decide_eq_true_2 by (destruct (lookup_entry s SOURCE_LOGO); [done|congruence]).
  cbv beta iota delta [negb].
  repeat case_match; congruence.
Qed.

Lemma true_run_outputs s s' fmt src :
  lookup_entry s SOURCE_LOGO = Some (File (Encoded fmt src)) ->
  generate_logos s = (inl true, s') ->
  forall f sz, In (f, sz) SIZES ->
    lookup_entry s' (join PUBLIC_DIR f) = Some (out_entry (to_rgba src) sz).
Proof.
  intros Hsrc Hrun f sz Hin.
  destruct (generate_logos_true_inv _ _ Hrun)
    as (fmt' & src' & s1 & Hsrc' & _ & _ & _ & _ & Hfiles & _).
  rewrite Hsrc in Hsrc'. injection Hsrc' as <- <-.
  rewrite Hfiles by apply join_not_nil.
  rewrite decide_False by (apply not_eq_sym, (ico_not_output _ sz); done).
  by apply write_outputs_in; [apply SIZES_nodup|].
Qed.


(** ** Properties of the script *)

(** C1: for every source file holding a decodable image (squareness of the
    source is not needed), in an environment where the run can complete,
    [generate_logos] returns [True] and each of the six entries of [SIZES]
    is a PNG file whose image has exactly that edge length in both
    dimensions, four bands with alpha (RGBA), and the pixels of the LANCZOS
    resampling of the source. *)
Theorem outputs_exact_size_rgba_png_lanczos s fmt src :
  lookup_entry s SOURCE_LOGO = Some (File (Encoded fmt src)) ->
  run_ready s ->
  exists s', generate_logos s = (inl true, s') /\
    forall f sz, In (f, sz) SIZES ->
      exists img, lookup_entry s' (join PUBLIC_DIR f) = Some (File (Encoded PNG img)) /\
        width img = sz /\ height img = sz /\
        bands (mode img) = 4 /\ has_alpha (mode img) = true /\
        data img = resample LANCZOS sz sz (to_rgba src).
Proof.
  intros Hsrc Hready. destruct (generate_logos_ok s Hready) as [s' Hrun].
  exists s'. split; [done|]. intros f sz Hin.
  exists (resize (to_rgba src) (sz, sz) LANCZOS).
  rewrite (true_run_outputs s s' fmt src Hsrc Hrun f sz Hin).
  unfold out_entry, resize. cbn [width height mode data fst snd]. rewrite to_rgba_mode. by repeat split.
Qed.

(** C2: when the source file is absent, [generate_logos] returns [False],
    leaves every file as it was and only prints the missing path. *)
Theorem missing_source_no_output s r s' :
  lookup_entry s SOURCE_LOGO = None ->
  generate_logos s = (r, s') ->
  r = inl false /\ files s' = files s /\ locked s' = locked s /\
  trace s' = Print (MsgSourceNotFound SOURCE_LOGO) :: trace s.
Proof.
  intros Hnone Hrun. rewrite generate_logos_missing in Hrun by done.
  injection Hrun as <- <-. by repeat split.
Qed.

(** C3 (amended): [generate_logos] returns [False] exactly when the source
    is missing; a return of [True] means the six entries were written from
    the source; a write error on an entry is not caught (the call raises);
    and a run in a ready environment returns [True]. *)
Theorem generate_logos_outcomes s :
  ((exists s', generate_logos s = (inl false, s')) <-> lookup_entry s SOURCE_LOGO = None) /\
  (forall s', generate_logos s = (inl true, s') ->
     exists fmt src, lookup_entry s SOURCE_LOGO = Some (File (Encoded fmt src)) /\
       forall f sz, In (f, sz) SIZES ->
         lookup_entry s' (join PUBLIC_DIR f) = Some (out_entry (to_rgba src) sz)) /\
  (forall f sz, In (f, sz) SIZES -> lookup_entry s SOURCE_LOGO <> None ->
     join PUBLIC_DIR f ∈ locked s \/ lookup_entry s (join PUBLIC_DIR f) = Some Dir ->
     exists e s', generate_logos s = (inr e, s')) /\
  (run_ready s -> exists s', generate_logos s = (inl true, s')).
Proof.
  split; [|split; [|split]].
  - split.
    + intros [s' Hrun]. destruct (lookup_entry s SOURCE_LOGO) eqn:E; [|done].
      exfalso. by apply (generate_logos_present_not_false s s'); [rewrite E|].
    + intros H. eexists. by apply generate_logos_missing.
  - intros s' Hrun.
    destruct (generate_logos_true_inv _ _ Hrun) as (fmt & src & _ & Hsrc & _).
    exists fmt, src. split; [done|]. by apply (true_run_outputs s s' fmt src).
  - intros f sz Hin Hsrc Hbad.
    destruct (generate_logos s) as [[[|] | e] s'] eqn:Hrun; [|exfalso|by eauto].
    + destruct (generate_logos_true_inv _ _ Hrun)
        as (fmt & src & s1 & _ & Hmk & [_ Hall] & _).
      apply mkdir_parents_effect in Hmk as Heff. destruct Heff as [Hlk1 _].
      destruct (Hall f sz Hin) as [Hlk Hdir].
      rewrite (mkdir_effect_longer _ _ _ _ (mkdir_parents_effect _ _ _ _ Hmk))
        in Hdir by (rewrite length_join; lia).
      rewrite Hlk1 in Hlk. by destruct Hbad.
    + by apply (generate_logos_present_not_false s s').
  - apply generate_logos_ok.
Qed.

(** C4: a source without alpha is converted to RGBA, and every output of a
    successful run is a resize of that converted image, so each one has an
    alpha band whatever the mode of the source. *)
Theorem outputs_have_alpha s s' fmt src :
  lookup_entry s SOURCE_LOGO = Some (File (Encoded fmt src)) ->
  generate_logos s = (inl true, s') ->
  (has_alpha (mode src) = false -> to_rgba src = convert src M_RGBA) /\
  forall f sz, In (f, sz) SIZES ->
    exists img, lookup_entry s' (join PUBLIC_DIR f) = Some (File (Encoded PNG img)) /\
      img = resize (to_rgba src) (sz, sz) LANCZOS /\
      mode img = M_RGBA /\ has_alpha (mode img) = true.
Proof.
  intros Hsrc Hrun. split.
  - intros Ha. unfold to_rgba. rewrite decide_True; [done|].
    intros E. by rewrite E in Ha.
  - intros f sz Hin. eexists. rewrite (true_run_outputs s s' fmt src Hsrc Hrun f sz Hin).
    split; [done|]. split; [done|]. simpl. by rewrite to_rgba_mode.
Qed.

(** C5: the legacy [favicon.ico] is removed after the six outputs are
    written: a file present before a run that returns [True] is absent
    afterwards, and its removal is the last effect after the six writes;
    when it is absent, a run in a ready environment returns [True] with no
    removal at all. *)
Theorem legacy_ico_removed_after_outputs s :
  (forall s', lookup_entry s OLD_ICO <> None ->
     generate_logos s = (inl true, s') ->
     lookup_entry s' OLD_ICO = None /\
     exists tr0, trace s' =
       Print (MsgDone 6 PUBLIC_DIR) :: Print MsgDeletedIco :: Unlink OLD_ICO ::
       loop_trace SIZES tr0) /\
  (lookup_entry s OLD_ICO = None -> run_ready s ->
     exists s', generate_logos s = (inl true, s') /\ lookup_entry s' OLD_ICO = None /\
       exists tr0, trace s' = Print (MsgDone 6 PUBLIC_DIR) :: loop_trace SIZES tr0).
Proof.
  assert (Hlen : length PUBLIC_DIR < length OLD_ICO) by (unfold OLD_ICO; rewrite length_join; lia).
  split.
  - intros s' Hex Hrun.
    destruct (generate_logos_true_inv _ _ Hrun)
      as (fmt & src & s1 & _ & Hmk & _ & _ & _ & Hfiles & Htr).
    rewrite (mkdir_effect_longer _ _ _ _ (mkdir_parents_effect _ _ _ _ Hmk) Hlen) in Htr.
    split.
    + rewrite Hfiles by apply join_not_nil. by rewrite decide_True.
    + rewrite bool_decide_eq_true_2 in Htr
        by (destruct (lookup_entry s OLD_ICO); [done|congruence]).
      eexists. rewrite Htr. reflexivity.
  - intros Hnone Hready. destruct (generate_logos_ok s Hready) as [s' Hrun].
    exists s'. split; [done|].
    destruct (generate_logos_true_inv _ _ Hrun)
      as (fmt & src & s1 & _ & Hmk & _ & _ & _ & Hfiles & Htr).
    rewrite (mkdir_effect_longer _ _ _ _ (mkdir_parents_effect _ _ _ _ Hmk) Hlen), Hnone in Htr.
    split.
    + rewrite Hfiles by apply join_not_nil. by rewrite decide_True.
    + eexists. rewrite Htr. reflexivity.
Qed.

(** C6 (amended): the [__main__] block discards the boolean, so the process
    exits with status 0 whenever [generate_logos] returns, [True] or
    [False]; only an exception escaping it gives a non-zero status. *)
Theorem exit_status_ignores_result s :
  (forall b s', generate_logos s = (inl b, s') -> run_main s = 0) /\
  (forall e s', generate_logos s = (inr e, s') -> run_main s = 1).
Proof.
  unfold run_main, main. cbv beta iota delta [mbind M_bind mret M_ret].
  split; intros ? s' Hrun; by rewrite Hrun.
Qed.

(** C7 (amended): removing the legacy [favicon.ico] is not guarded.  When
    the run gets past the loop (decodable source, output directory
    creatable, six writable output paths) and [favicon.ico] is a directory
    or a file the process may not delete, the error of the removal
    ([IsADirectoryError] or [PermissionError] for [favicon.ico]) escapes
    [generate_logos] after all six outputs were written: the call does not
    return [True]. *)
Theorem legacy_unlink_failure_not_caught s fmt src e :
  lookup_entry s SOURCE_LOGO = Some (File (Encoded fmt src)) ->
  (lookup_entry s PUBLIC_DIR = Some Dir \/
   forall q, prefix q PUBLIC_DIR ->
     lookup_entry s q = Some Dir \/ (lookup_entry s q = None /\ q ∉ locked s)) ->
  (forall f sz, In (f, sz) SIZES ->
     (join PUBLIC_DIR f ∉ locked s) /\ lookup_entry s (join PUBLIC_DIR f) <> Some Dir) ->
  (lookup_entry s OLD_ICO = Some Dir /\ e = IsADirectoryError OLD_ICO \/
   (exists c, lookup_entry s OLD_ICO = Some (File c)) /\ OLD_ICO ∈ locked s /\
     e = PermissionError OLD_ICO) ->
  exists s', generate_logos s = (inr e, s') /\
    (forall f sz, In (f, sz) SIZES ->
       lookup_entry s' (join PUBLIC_DIR f) = Some (out_entry (to_rgba src) sz)) /\
    lookup_entry s' OLD_ICO = lookup_entry s OLD_ICO /\
    exists tr0, trace s' = loop_trace SIZES tr0.
Proof.
  intros Hsrc Hpre Hout Hico.
  unfold generate_logos. remember SIZES as tbl eqn:Htbl.
  cbv beta iota delta [mbind M_bind mret M_ret path_exists print].
  rewrite Hsrc, bool_decide_eq_true_2 by done. cbv beta iota delta [negb].
  assert (Hmk : exists s1, mkdir_parents PUBLIC_DIR s = (inl tt, s1) /\
                 lookup_entry s1 PUBLIC_DIR = Some Dir).
  { destruct Hpre as [Hd|Hpre].
    - exists s. by rewrite mkdir_parents_existing.
    - destruct (mkdir_parents_rev_ok (rev PUBLIC_DIR) s) as (s1 & Hmk & Hpub1).
      { rewrite rev_involutive. done. }
      rewrite rev_involutive in Hpub1. by exists s1. }
  destruct Hmk as (s1 & Hmk & Hpub1).
  pose proof (mkdir_parents_effect _ _ _ _ Hmk) as Heff.
  rewrite Hmk. cbn iota beta.
  pose proof Heff as [Hlk1 Heff'].
  assert (Hsrc1 : lookup_entry s1 SOURCE_LOGO = Some (File (Encoded fmt src))).
  { destruct (Heff' SOURCE_LOGO) as [->|(? & _ & _)]; congruence. }
  unfold image_open. rewrite lookup_entry_log, Hsrc1. cbn iota beta.
  assert (Hlen : forall f, length PUBLIC_DIR < length (join PUBLIC_DIR f)).
  { intros f. rewrite length_join. lia. }
  rewrite save_sizes_ok.
  2: { apply to_rgba_mode_png. }
  2: { apply loop_ready_log, loop_ready_log. split; [done|].
       intros f sz Hin. destruct (Hout f sz Hin) as [Ha Hb].
       rewrite Hlk1. split; [done|]. by rewrite (mkdir_effect_longer _ _ _ _ Heff). }
  cbn iota beta.
  match goal with |- context [lookup_entry ?st OLD_ICO] =>
    assert (Hico1 : lookup_entry st OLD_ICO = lookup_entry s OLD_ICO);
    [|set (st2 := st) in *] end.
  { rewrite lookup_entry_mkFS by apply join_not_nil. rewrite write_outputs_notin.
    - simpl. rewrite <- (mkdir_effect_longer _ _ _ _ Heff) by apply Hlen.
      unfold OLD_ICO. by rewrite lookup_entry_join.
    - rewrite Htbl; apply ico_not_output. }
  assert (Hst2 : (forall f sz, In (f, sz) SIZES ->
       lookup_entry st2 (join PUBLIC_DIR f) = Some (out_entry (to_rgba src) sz)) /\
     exists tr0, trace st2 = loop_trace SIZES tr0).
  { subst st2. rewrite Htbl. split; [|by eexists].
    intros f sz Hin. rewrite lookup_entry_mkFS by apply join_not_nil.
    by apply write_outputs_in; [apply SIZES_nodup|]. }
  rewrite Hico1. destruct Hst2 as [Hw Htr].
  destruct Hico as [[Hd ->]|((c & Hc) & Hlk & ->)].
  - rewrite Hd, bool_decide_eq_true_2 by done. cbn iota beta.
    unfold path_unlink. rewrite Hico1, Hd. cbn iota beta.
    exists st2. subst tbl. repeat split; [exact Hw|congruence|exact Htr].
  - rewrite Hc, bool_decide_eq_true_2 by done. cbn iota beta.
    unfold path_unlink. rewrite Hico1, Hc. cbn iota beta.
    rewrite decide_True; [|subst st2; simpl; by rewrite Hlk1].
    exists st2. subst tbl. repeat split; [exact Hw|congruence|exact Htr].
Qed.

(** C8 (amended): the source path and the output directory are resolved
    against the same anchor, the parent of the script's directory. *)
Theorem source_and_public_share_anchor root dir fname :
  SOURCE_LOGO = join (parent (parent script_file)) "logo.png" /\
  PUBLIC_DIR = join (parent (parent script_file)) "public" /\
  (script_file = root ++ [dir; fname] ->
   SOURCE_LOGO = root ++ ["logo.png"] /\ PUBLIC_DIR = root ++ ["public"]).
Proof.
  split; [done|]. split; [done|]. intros E.
  unfold SOURCE_LOGO, PUBLIC_DIR, parent. rewrite E.
  replace (root ++ [dir; fname]) with ((root ++ [dir]) ++ [fname]) by by rewrite <- app_assoc.
  by rewrite !removelast_last.
Qed.

(** C9: directory creation succeeds without change when the directory
    exists, and after a run that returns [True] a second run also returns
    [True], writes the six outputs again, and leaves the tree as the first
    run left it. *)
Theorem rerun_idempotent :
  (forall p s, lookup_entry s p = Some Dir -> mkdir_parents p s = (inl tt, s)) /\
  (forall s s1, generate_logos s = (inl true, s1) ->
     exists s2, generate_logos s1 = (inl true, s2) /\
       locked s2 = locked s1 /\ (forall q, lookup_entry s2 q = lookup_entry s1 q) /\
       exists tr0, trace s2 = Print (MsgDone 6 PUBLIC_DIR) :: loop_trace SIZES tr0).
Proof.
  split; [apply mkdir_parents_existing|].
  intros s s1 Hrun.
  destruct (generate_logos_true_inv _ _ Hrun)
    as (fmt & src & sm & Hsrc & Hmk & [Hpub Hall] & _ & Hlk & Hfiles & _).
  pose proof (mkdir_parents_effect _ _ _ _ Hmk) as [Hlkm _].
  assert (Hsrc1 : lookup_entry s1 SOURCE_LOGO = Some (File (Encoded fmt src))).
  { rewrite Hfiles by (unfold SOURCE_LOGO; apply join_not_nil).
    rewrite decide_False by (apply not_eq_sym, ico_ne_source).
    rewrite write_outputs_notin.
    - rewrite <- Hsrc. symmetry.
      destruct (proj2 (mkdir_parents_effect _ _ _ _ Hmk) SOURCE_LOGO) as [E|(? & _ & _)];
        [|congruence].
      rewrite <- E. unfold SOURCE_LOGO. apply lookup_entry_join.
    - intros f sz _ E. by apply (out_ne_source f). }
  assert (Hico1 : lookup_entry s1 OLD_ICO = None).
  { rewrite Hfiles by apply join_not_nil. by rewrite decide_True. }
  assert (Hout1 : forall f sz, In (f, sz) SIZES ->
            lookup_entry s1 (join PUBLIC_DIR f) = Some (out_entry (to_rgba src) sz)).
  { by apply true_run_outputs with s fmt. }
  assert (Hpub1 : lookup_entry s1 PUBLIC_DIR = Some Dir).
  { rewrite Hfiles by apply join_not_nil.
    rewrite decide_False by (apply not_eq_sym, out_ne_public).
    rewrite write_outputs_notin; [|intros f sz _; apply not_eq_sym, out_ne_public].
    rewrite <- Hpub. unfold PUBLIC_DIR. by rewrite lookup_entry_join. }
  destruct (generate_logos_ok s1) as [s2 Hrun2].
  { split; [by eauto|]. split; [by left|]. split; [|by left].
    intros f sz Hin. destruct (Hall f sz Hin) as [Hl _].
    rewrite Hlk, <- Hlkm. split; [done|]. by rewrite (Hout1 f sz Hin). }
  exists s2. split; [done|].
  destruct (generate_logos_true_inv _ _ Hrun2)
    as (fmt2 & src2 & sm2 & Hsrc2 & Hmk2 & _ & _ & Hlk2 & Hfiles2 & Htr2).
  rewrite Hsrc1 in Hsrc2. injection Hsrc2 as <- <-.
  rewrite mkdir_parents_existing in Hmk2 by done. injection Hmk2 as <-.
  split; [done|]. split.
  - intros q. destruct q as [|x q']; [done|].
    rewrite Hfiles2 by done. case_decide as Hq; [by rewrite Hq, Hico1|].
    destruct (out_path_cases SIZES (x :: q')) as [(f & sz & Hin & E)|Hno].
    + rewrite E, (write_outputs_in _ _ _ f sz) by (done || apply SIZES_nodup). by rewrite (Hout1 f sz Hin).
    + by rewrite write_outputs_notin.
  - rewrite Hico1 in Htr2. eexists. rewrite Htr2. reflexivity.
Qed.

(** C10: every output is the PNG of the converted source resized to its own
    edge length; and the loop gives the same files for any order of the
    table, so the outputs do not depend on the order of [SIZES]. *)
Theorem outputs_independent_of_table_order :
  (forall s s' fmt src,
     lookup_entry s SOURCE_LOGO = Some (File (Encoded fmt src)) ->
     generate_logos s = (inl true, s') ->
     forall f sz, In (f, sz) SIZES ->
       lookup_entry s' (join PUBLIC_DIR f) =
         Some (File (Encoded PNG (resize (to_rgba src) (sz, sz) LANCZOS)))) /\
  (forall tbl img gen s r s',
     Permutation tbl SIZES ->
     save_sizes img SIZES gen s = (inl r, s') ->
     exists r' s'', save_sizes img tbl gen s = (inl r', s'') /\
       files s'' = files s' /\ locked s'' = locked s').
Proof.
  split; [apply true_run_outputs|].
  intros tbl img gen s r s' Hperm Hrun.
  pose proof SIZES_nodup as Hnd0.
  assert (Hne0 : SIZES <> []) by discriminate.
  remember SIZES as tbl0 eqn:Htbl0. clear Htbl0.
  destruct (save_sizes_inv _ _ _ _ _ _ Hrun) as [Hpng [Hpub Hall]]; [done|].
  rewrite save_sizes_ok in Hrun by (done || by split). injection Hrun as _ <-.
  eexists _, _. rewrite save_sizes_ok; [|done|].
  2: { split; [done|]. intros f sz Hin. apply (Hall f sz).
       by apply (Permutation_in _ Hperm). }
  split; [done|]. split; [|done]. cbn [files].
  assert (Hnd : NoDup (map fst tbl)).
  { assert (Hp : map fst tbl ≡ₚ map fst tbl0) by (by apply Permutation_map).
    by rewrite Hp. }
  apply map_eq. intros q.
  destruct (out_path_cases tbl0 q) as [(f & sz & Hin & ->)|Hno].
  - rewrite (write_outputs_in _ _ _ f sz), (write_outputs_in _ _ _ f sz);
      try done.
    by apply (Permutation_in _ (symmetry Hperm)).
  - rewrite !write_outputs_notin; [done|done|].
    intros f sz Hin. apply (Hno f sz). by apply (Permutation_in _ Hperm).
Qed.

(** ** What a run touches *)

Lemma run_effect_refl s : run_effect s s.
Proof. split; [done|]. intros q. by left. Qed.

Lemma keeps_step {A} (m : M A) :
  (forall s r s', m s = (r, s') -> locked s' = locked s /\
     forall q, ~ out_path q -> q <> OLD_ICO -> lookup_entry s' q = lookup_entry s q) ->
  keeps m.
Proof.
  intros Hm s0 s r s' [Hl H] E. destruct (Hm _ _ _ E) as [Hl' H'].
  split; [congruence|]. intros q.
  destruct (out_path_cases SIZES q) as [Ho|Hno]; [by right; right; left|].
  destruct (decide (q = OLD_ICO)) as [->|Hne]; [by right; right; right|].
  rewrite H'; [apply H| |done]. intros (f & sz & Hin & ->). by apply (Hno f sz).
Qed.

Lemma keeps_ret {A} (x : A) : keeps (mret x).
Proof. intros s0 s r s' H [= _ <-]. done. Qed.

Lemma keeps_bind {A B} (m : M A) (k : A -> M B) :
  keeps m -> (forall x, keeps (k x)) -> keeps (m ≫= k).
Proof.
  intros Hm Hk s0 s r s' H. unfold mbind, M_bind.
  destruct (m s) as [[x|e] s1] eqn:E.
  - intros E2. apply (Hk x s0 s1 r s'); [by eapply Hm|done].
  - intros [= _ <-]. by eapply Hm.
Qed.

Lemma keeps_print m : keeps (print m).
Proof.
  apply keeps_step. intros s r s' [= _ <-]. split; [done|].
  intros q _ _. apply lookup_entry_log.
Qed.

Lemma keeps_path_exists p : keeps (path_exists p).
Proof. apply keeps_step. intros s r s' [= _ <-]. done. Qed.

Lemma keeps_image_open p : keeps (image_open p).
Proof.
  apply keeps_step. intros s r s'. unfold image_open.
  repeat case_match; intros [= _ <-]; done.
Qed.

Lemma open_for_write_frame p s r s' :
  open_for_write p s = (r, s') ->
  locked s' = locked s /\ forall q, q <> p -> lookup_entry s' q = lookup_entry s q.
Proof.
  unfold open_for_write.
  repeat case_match; intros [= _ <-]; split; try done; intros q Hq;
    by rewrite lookup_entry_insert_ne.
Qed.

Lemma image_save_frame img p fmt s r s' :
  image_save img p fmt s = (r, s') ->
  locked s' = locked s /\ forall q, q <> p -> lookup_entry s' q = lookup_entry s q.
Proof.
  unfold image_save. cbv zeta.
  destruct (open_for_write p s) as [r1 s1] eqn:E.
  apply open_for_write_frame in E as [Hl H].
  destruct r1 as [u|e]; [|intros [= _ <-]; done].
  repeat case_match; intros [= _ <-]; split; try done; intros q Hq;
    rewrite ?lookup_entry_log, ?lookup_entry_delete_ne, ?lookup_entry_insert_ne by done;
    by apply H.
Qed.

Lemma keeps_image_save img f sz fmt :
  In (f, sz) SIZES -> keeps (image_save img (join PUBLIC_DIR f) fmt).
Proof.
  intros Hin. apply keeps_step. intros s r s' E.
  destruct (image_save_frame _ _ _ _ _ _ E) as [Hl H]. split; [done|].
  intros q Hq _. apply H. intros ->. apply Hq. by exists f, sz.
Qed.

Lemma keeps_unlink : keeps (path_unlink OLD_ICO).
Proof.
  apply keeps_step. intros s r s'. unfold path_unlink.
  repeat case_match; intros [= _ <-]; split; try done; intros q _ Hq.
  rewrite lookup_entry_log. by apply lookup_entry_delete_ne.
Qed.

Lemma keeps_mkdir_public : keeps (mkdir_parents PUBLIC_DIR).
Proof.
  intros s0 s r s' [Hl H] E. destruct (mkdir_parents_effect _ _ _ _ E) as [Hl' H'].
  split; [congruence|]. intros q.
  destruct (H' q) as [E1|(N1 & D1 & P1)].
  - rewrite E1. apply H.
  - destruct (H q) as [E2|[(N2 & D2 & _)|Ho]].
    + right; left. rewrite <- E2. by repeat split.
    + congruence.
    + by right; right.
Qed.

Lemma keeps_save_sizes img tbl gen :
  (forall f sz, In (f, sz) tbl -> In (f, sz) SIZES) -> keeps (save_sizes img tbl gen).
Proof.
  revert gen. induction tbl as [|[f sz] rest IH]; intros gen Hsub; simpl save_sizes.
  - apply keeps_ret.
  - apply keeps_bind; [apply (keeps_image_save _ f sz); apply Hsub; by left|intros _].
    apply keeps_bind; [apply keeps_ret|intros gen'].
    apply keeps_bind; [apply keeps_print|intros _].
    apply IH. intros f' sz' Hin. apply Hsub. by right.
Qed.

Lemma keeps_generate_logos : keeps generate_logos.
Proof.
  unfold generate_logos.
  apply keeps_bind; [apply keeps_path_exists|intros [|]]; cbv beta iota delta [negb].
  - apply keeps_bind; [apply keeps_mkdir_public|intros _].
    apply keeps_bind; [apply keeps_print|intros _].
    apply keeps_bind; [apply keeps_image_open|intros img0]. cbv zeta.
    apply keeps_bind; [apply keeps_print|intros _].
    apply keeps_bind; [by apply keeps_save_sizes|intros gen].
    apply keeps_bind; [apply keeps_path_exists|intros [|]].
    + apply keeps_bind; [apply keeps_bind; [apply keeps_unlink|intros _; apply keeps_print]|intros _].
      apply keeps_bind; [apply keeps_print|intros _]. apply keeps_ret.
    + apply keeps_bind; [apply keeps_ret|intros _].
      apply keeps_bind; [apply keeps_print|intros _]. apply keeps_ret.
  - apply keeps_bind; [apply keeps_print|intros _]. apply keeps_ret.
Qed.

Lemma source_not_prefix_public : ~ prefix SOURCE_LOGO PUBLIC_DIR.
Proof.
  intros [k Hk]. assert (k = []) as ->.
  { apply (f_equal length) in Hk. unfold SOURCE_LOGO, PUBLIC_DIR in Hk.
    rewrite length_app, !length_join in Hk. destruct k; [done|simpl in Hk; lia]. }
  rewrite app_nil_r in Hk. unfold SOURCE_LOGO, PUBLIC_DIR in Hk.
  apply join_inj in Hk. discriminate.
Qed.

(** ** Errors a run can raise *)

Lemma no_encode_bind {A B} (m : M A) (k : A -> M B) :
  no_encode_error m -> (forall x, no_encode_error (k x)) -> no_encode_error (m ≫= k).
Proof.
  intros Hm Hk s e s'. unfold mbind, M_bind. destruct (m s) as [[x|e'] s1] eqn:E.
  - apply Hk.
  - intros [= <- _]. by eapply Hm.
Qed.

Lemma no_encode_ret {A} (x : A) : no_encode_error (mret x).
Proof. intros s e s' [=]. Qed.

Lemma no_encode_print m : no_encode_error (print m).
Proof. intros s e s' [=]. Qed.

Lemma no_encode_path_exists p : no_encode_error (path_exists p).
Proof. intros s e s' [=]. Qed.

Lemma no_encode_image_open p : no_encode_error (image_open p).
Proof. intros s e s'. unfold image_open. repeat case_match; intros [= <- _]; done. Qed.

Lemma no_encode_os_mkdir p : no_encode_error (os_mkdir p).
Proof. intros s e s'. unfold os_mkdir. repeat case_match; intros [= <- _]; done. Qed.

Lemma no_encode_mkdir_exist_ok p : no_encode_error (mkdir_exist_ok p).
Proof.
  intros s e s'. unfold mkdir_exist_ok.
  destruct (os_mkdir p s) as [r0 s0] eqn:E. pose proof (no_encode_os_mkdir p s) as H.
  destruct r0 as [u|e0]; [by intros [=]|].
  specialize (H e0 s0 E).
  destruct e0; try (destruct (is_dir s0 p)); intros [= <- _]; done.
Qed.

Lemma no_encode_mkdir_parents_rev rp : no_encode_error (mkdir_parents_rev rp).
Proof.
  induction rp as [|x rp IH]; intros s e s'.
  - simpl. by intros [=].
  - rewrite mkdir_parents_rev_cons.
    destruct (os_mkdir (rev (x :: rp)) s) as [r0 s0] eqn:E.
    pose proof (no_encode_os_mkdir (rev (x :: rp)) s) as H.
    destruct r0 as [u|e0]; [by intros [=]|].
    specialize (H e0 s0 E).
    destruct e0; try (destruct (is_dir s0 (rev (x :: rp))); intros [= <- _]; done).
    apply no_encode_bind; [apply IH|intros _; apply no_encode_mkdir_exist_ok].
Qed.

Lemma no_encode_open_for_write p : no_encode_error (open_for_write p).
Proof. intros s e s'. unfold open_for_write. repeat case_match; intros [= <- _]; done. Qed.

Lemma no_encode_image_save img p :
  png_supported (mode img) = true -> no_encode_error (image_save img p PNG).
Proof.
  intros Hpng s e s'. unfold image_save. cbv zeta.
  destruct (open_for_write p s) as [[u|e1] s1] eqn:E.
  - rewrite Hpng, bool_decide_eq_true_2 by done. cbn [andb]. by intros [=].
  - intros [= <- _]. by eapply no_encode_open_for_write.
Qed.

Lemma no_encode_unlink p : no_encode_error (path_unlink p).
Proof. intros s e s'. unfold path_unlink. repeat case_match; intros [= <- _]; done. Qed.

Lemma no_encode_save_sizes img tbl gen :
  png_supported (mode img) = true -> no_encode_error (save_sizes img tbl gen).
Proof.
  intros Hpng. revert gen. induction tbl as [|[f sz] rest IH]; intros gen; simpl save_sizes.
  - apply no_encode_ret.
  - apply no_encode_bind; [by apply no_encode_image_save|intros _].
    apply no_encode_bind; [apply no_encode_ret|intros gen'].
    apply no_encode_bind; [apply no_encode_print|intros _]. apply IH.
Qed.

Lemma no_encode_generate_logos : no_encode_error generate_logos.
Proof.
  unfold generate_logos.
  apply no_encode_bind; [apply no_encode_path_exists|intros [|]]; cbv beta iota delta [negb].
  - apply no_encode_bind; [apply no_encode_mkdir_parents_rev|intros _].
    apply no_encode_bind; [apply no_encode_print|intros _].
    apply no_encode_bind; [apply no_encode_image_open|intros img0]. cbv zeta.
    apply no_encode_bind; [apply no_encode_print|intros _].
    apply no_encode_bind; [apply no_encode_save_sizes, to_rgba_mode_png|intros gen].
    apply no_encode_bind; [apply no_encode_path_exists|intros [|]].
    + apply no_encode_bind;
        [apply no_encode_bind; [apply no_encode_unlink|intros _; apply no_encode_print]|intros _].
      apply no_encode_bind; [apply no_encode_print|intros _]. apply no_encode_ret.
    + apply no_encode_bind; [apply no_encode_ret|intros _].
      apply no_encode_bind; [apply no_encode_print|intros _]. apply no_encode_ret.
  - apply no_encode_bind; [apply no_encode_print|intros _]. apply no_encode_ret.
Qed.

Lemma mkdir_parents_on_file p s c :
  lookup_entry s p = Some (File c) -> mkdir_parents p s = (inr (FileExistsError p), s).
Proof.
  intros H. unfold mkdir_parents.
  destruct (rev p) as [|x rp] eqn:Er.
  { apply (f_equal (@rev string)) in Er. rewrite rev_involutive in Er. simpl in Er. subst p. discriminate. }
  assert (Ep : p = rev (x :: rp)) by (by rewrite <- Er, rev_involutive).
  rewrite mkdir_parents_rev_cons, <- Ep. unfold os_mkdir. rewrite H. cbn iota.
  unfold is_dir. by rewrite H.
Qed.

Lemma image_save_locked img p s :
  lookup_entry s (parent p) = Some Dir -> p ∈ locked s -> lookup_entry s p <> Some Dir ->
  image_save img p PNG s = (inr (PermissionError p), s).
Proof.
  intros Hpar Hlk Hdir. unfold image_save, open_for_write. cbv zeta.
  destruct (lookup_entry s p) as [[|c]|]; [congruence| |];
    rewrite Hpar, decide_True by done; done.
Qed.

Lemma to_rgba_width img : width (to_rgba img) = width img.
Proof. unfold to_rgba. by case_decide. Qed.

Lemma to_rgba_height img : height (to_rgba img) = height img.
Proof. unfold to_rgba. by case_decide. Qed.

(** ** Further properties of the script *)

(** Whatever the outcome of [generate_logos], an exception included,
    permissions are unchanged and every path is as it was, except
    directories created where nothing was on the way to [PUBLIC_DIR], the
    six output paths and the legacy [favicon.ico]. *)
Theorem generate_logos_touches_only_outputs s r s' :
  generate_logos s = (r, s') -> run_effect s s'.
Proof. intros E. exact (keeps_generate_logos s s r s' (run_effect_refl s) E). Qed.

(** Whatever the outcome of [generate_logos], the source logo is left as
    it was: the script never writes, replaces or removes it. *)
Theorem generate_logos_source_untouched s r s' :
  generate_logos s = (r, s') -> lookup_entry s' SOURCE_LOGO = lookup_entry s SOURCE_LOGO.
Proof.
  intros E. destruct (keeps_generate_logos s s r s' (run_effect_refl s) E) as [_ H].
  destruct (H SOURCE_LOGO) as [E1|[(_ & _ & Hp)|[(f & sz & _ & Hf)|Hi]]].
  - done.
  - by apply source_not_prefix_public in Hp.
  - by destruct (out_ne_source f).
  - by destruct ico_ne_source.
Qed.

(** [generate_logos] never raises an encoder error: every image it saves
    is a resize of the RGBA image, and PNG encodes RGBA. *)
Theorem generate_logos_no_encode_error s e s' :
  generate_logos s = (inr e, s') -> forall md fmt, e <> EncodeError md fmt.
Proof. apply no_encode_generate_logos. Qed.

(** When the source exists and [PUBLIC_DIR] is a regular file, the
    directory creation raises [FileExistsError] for [PUBLIC_DIR] before
    anything is printed or opened, and the state is left unchanged. *)
Theorem generate_logos_public_is_file s c :
  lookup_entry s SOURCE_LOGO <> None -> lookup_entry s PUBLIC_DIR = Some (File c) ->
  generate_logos s = (inr (FileExistsError PUBLIC_DIR), s).
Proof.
  intros Hsrc Hpub. unfold generate_logos.
  cbv beta iota delta [mbind M_bind mret M_ret path_exists print].
  rewrite bool_decide_eq_true_2 by (destruct (lookup_entry s SOURCE_LOGO); [done|congruence]).
  cbv beta iota delta [negb]. by rewrite (mkdir_parents_on_file _ _ c).
Qed.

(** With [PUBLIC_DIR] in place, a source path that holds bytes no decoder
    recognises makes [Image.open] raise [UnidentifiedImageError], and one
    that is a directory raises [IsADirectoryError]; in both cases only the
    loading line has been printed and nothing is written. *)
Theorem generate_logos_undecodable_source s :
  lookup_entry s PUBLIC_DIR = Some Dir ->
  (lookup_entry s SOURCE_LOGO = Some (File Garbage) ->
     generate_logos s =
       (inr (UnidentifiedImageError SOURCE_LOGO), log s (Print (MsgLoading SOURCE_LOGO)))) /\
  (lookup_entry s SOURCE_LOGO = Some Dir ->
     generate_logos s =
       (inr (IsADirectoryError SOURCE_LOGO), log s (Print (MsgLoading SOURCE_LOGO)))).
Proof.
  intros Hpub. split; intros Hsrc; unfold generate_logos;
    cbv beta iota delta [mbind M_bind mret M_ret path_exists print];
    rewrite Hsrc, bool_decide_eq_true_2 by done; cbv beta iota delta [negb];
    rewrite mkdir_parents_existing by done; cbv beta iota delta [image_open];
    rewrite lookup_entry_log, Hsrc; reflexivity.
Qed.

(** The lines printed by a run that returns [True], after the directory
    creation: the loading line, the size of the source with mode RGBA, one
    line per table entry in table order, the deletion line when a legacy
    [favicon.ico] was there, and a final count of 6 files in [PUBLIC_DIR]. *)
Theorem generate_logos_true_messages s s' fmt src :
  lookup_entry s SOURCE_LOGO = Some (File (Encoded fmt src)) ->
  generate_logos s = (inl true, s') ->
  exists s1, mkdir_parents PUBLIC_DIR s = (inl tt, s1) /\
    trace s' =
      Print (MsgDone 6 PUBLIC_DIR) ::
      (if bool_decide (is_Some (lookup_entry s OLD_ICO))
       then [Print MsgDeletedIco; Unlink OLD_ICO] else []) ++
      loop_trace SIZES
        (Print (MsgSourceSize (width src) (height src) M_RGBA)
         :: Print (MsgLoading SOURCE_LOGO) :: trace s1).
Proof.
  intros Hsrc Hrun.
  destruct (generate_logos_true_inv _ _ Hrun)
    as (fmt' & src' & s1 & Hsrc' & Hmk & _ & _ & _ & _ & Htr).
  rewrite Hsrc in Hsrc'. injection Hsrc' as <- <-.
  exists s1. split; [done|].
  assert (Hlen : length PUBLIC_DIR < length OLD_ICO) by (unfold OLD_ICO; rewrite length_join; lia).
  rewrite (mkdir_effect_longer _ _ _ _ (mkdir_parents_effect _ _ _ _ Hmk) Hlen) in Htr.
  by rewrite Htr, to_rgba_width, to_rgba_height, to_rgba_mode.
Qed.

(** After a run that returns [True], [PUBLIC_DIR] is a directory. *)
Theorem generate_logos_true_public_dir s s' :
  generate_logos s = (inl true, s') -> lookup_entry s' PUBLIC_DIR = Some Dir.
Proof.
  intros Hrun.
  destruct (generate_logos_true_inv _ _ Hrun)
    as (fmt & src & s1 & _ & _ & [Hpub _] & _ & _ & Hfiles & _).
  assert (Hne : PUBLIC_DIR <> []) by apply join_not_nil.
  rewrite Hfiles by done.
  rewrite decide_False.
  2: { intros E. apply (f_equal length) in E. unfold OLD_ICO in E. rewrite length_join in E. lia. }
  rewrite write_outputs_notin; [|intros f sz _; apply not_eq_sym, out_ne_public].
  rewrite <- Hpub. unfold PUBLIC_DIR. by rewrite lookup_entry_join.
Qed.

(** The loop stops at the first entry it cannot write: when the entries of
    [pre] can be written and the next output path is not writable, the
    loop raises [PermissionError] for that path with exactly the entries of
    [pre] written, and the entries after it are not attempted. *)
Theorem save_sizes_stops_at_failure img pre f sz post gen s :
  png_supported (mode img) = true -> loop_ready s pre ->
  join PUBLIC_DIR f ∈ locked s -> lookup_entry s (join PUBLIC_DIR f) <> Some Dir ->
  save_sizes img (pre ++ (f, sz) :: post) gen s =
    (inr (PermissionError (join PUBLIC_DIR f)),
     mkFS (write_outputs img pre (files s)) (locked s) (loop_trace pre (trace s))).
Proof.
  revert gen s. induction pre as [|[f0 sz0] rest IH]; intros gen s Hpng [Hpub Hall] Hlk Hdir.
  - simpl. rewrite (bind_inr _ _ _ _ _ (image_save_locked _ _ _ ltac:(by rewrite parent_join) Hlk Hdir)).
    by destruct s.
  - simpl. destruct (Hall f0 sz0) as [Hlk0 Hdir0]; [by left|].
    erewrite bind_inl; [|apply image_save_ok; rewrite ?parent_join; done].
    cbv beta iota delta [mbind M_bind mret M_ret print].
    assert (Hne : join PUBLIC_DIR f <> join PUBLIC_DIR f0) by (intros E; rewrite E in Hlk; done).
    rewrite IH; [done|done| |done|].
    + split.
      * by rewrite !lookup_entry_log, lookup_entry_insert_ne by apply not_eq_sym, out_ne_public.
      * intros f' sz' Hin. destruct (Hall f' sz') as [Hlk' Hdir']; [by right|].
        split; [done|]. rewrite !lookup_entry_log.
        destruct (decide (join PUBLIC_DIR f' = join PUBLIC_DIR f0)) as [->|Hne'].
        -- by rewrite lookup_entry_insert_eq by apply join_not_nil.
        -- by rewrite lookup_entry_insert_ne.
    + by rewrite !lookup_entry_log, lookup_entry_insert_ne.
Qed.

End Script.

Arguments Dir {Pixels}.
Arguments File {Pixels}.
Arguments Encoded {Pixels}.
Arguments Garbage {Pixels}.
Arguments mkImage {Pixels}.
Arguments mkFS {Pixels}.
Arguments files {Pixels}.
Arguments locked {Pixels}.
Arguments trace {Pixels}.
Arguments lookup_entry {Pixels}.
Arguments run_ready {Pixels}.

(** ** A concrete instance

    Pixels record the last operation applied: [cpx] the mode converted to,
    [rs] the filter and size of the resampling. *)

Definition px : Type := (Resampling * nat * nat) + Mode.

Definition cpx (m_from m_to : Mode) (p : px) : px := inr m_to.

Definition rs (filter : Resampling) (w h : nat) (img : Image px) : px :=
  inl (filter, w, h).

(** The script lives at [repo/scripts/generate-logos.py]. *)
Definition ex_script : path := ["repo"; "scripts"; "generate-logos.py"].

(** A 2048x2048 RGB source, without alpha. *)
Definition ex_src : Image px := mkImage 2048 2048 M_RGB (inr M_RGB).

Definition ex_tree : gmap path (Entry px) :=
  <[["repo"; "logo.png"] := File (Encoded PNG ex_src)]>
  (<[["repo"; "scripts"; "generate-logos.py"] := File Garbage]>
  (<[["repo"; "scripts"] := Dir]> (<[["repo"] := Dir]> ∅))).

Definition ex_public : gmap path (Entry px) := <[["repo"; "public"] := Dir]> ex_tree.

(** No [public] directory yet. *)
Definition st_fresh : FS px := mkFS ex_tree ∅ [].

(** [public] exists, no legacy icon. *)
Definition st_ready : FS px := mkFS ex_public ∅ [].

(** A removable legacy [favicon.ico]. *)
Definition st_ico : FS px :=
  mkFS (<[["repo"; "public"; "favicon.ico"] := File Garbage]> ex_public) ∅ [].

(** A legacy [favicon.ico] the process may not delete. *)
Definition st_ico_locked : FS px :=
  mkFS (<[["repo"; "public"; "favicon.ico"] := File Garbage]> ex_public)
    {[["repo"; "public"; "favicon.ico"]]} [].

(** [favicon.ico] is a directory. *)
Definition st_ico_dir : FS px :=
  mkFS (<[["repo"; "public"; "favicon.ico"] := Dir]> ex_public) ∅ [].

(** An output path is a directory. *)
Definition st_out_dir : FS px :=
  mkFS (<[["repo"; "public"; "logo-64.png"] := Dir]> ex_public) ∅ [].

(** No source logo. *)
Definition st_nosrc : FS px := mkFS (delete ["repo"; "logo.png"] ex_tree) ∅ [].

(** [public] is a regular file. *)
Definition st_public_file : FS px :=
  mkFS (<[["repo"; "public"] := File Garbage]> ex_tree) ∅ [].

(** The source holds bytes no decoder recognises. *)
Definition st_src_garbage : FS px :=
  mkFS (<[["repo"; "logo.png"] := File Garbage]> ex_public) ∅ [].

(** The third output path may not be written. *)
Definition st_out_locked : FS px :=
  mkFS ex_public {[["repo"; "public"; "logo-128.png"]]} [].

Abbreviation ex_run := (generate_logos px cpx rs ex_script).

Ltac solve_ready :=
  split; [eexists _, _; reflexivity|];
  split; [left; reflexivity|];
  split;
  [ intros f sz Hin; simpl in Hin;
    repeat destruct Hin as [[= <- <-]|Hin]; try done;
    (split; [set_solver | vm_compute; discriminate])
  | first [ left; reflexivity | right; eexists; split; [reflexivity | set_solver] ] ].

(** ** Witnesses and counterexamples *)

Lemma outputs_exact_size_rgba_png_lanczos_witness :
  exists s', ex_run st_ready = (inl true, s') /\
    forall f sz, In (f, sz) SIZES ->
      exists img, lookup_entry s' (join (PUBLIC_DIR ex_script) f) = Some (File (Encoded PNG img)) /\
        width px img = sz /\ height px img = sz /\
        bands (mode px img) = 4 /\ has_alpha (mode px img) = true /\
        data px img = rs LANCZOS sz sz (to_rgba px cpx ex_src).
Proof.
  apply (outputs_exact_size_rgba_png_lanczos px cpx rs ex_script st_ready PNG ex_src).
  - reflexivity.
  - solve_ready.
Defined.

Lemma missing_source_no_output_witness :
  let r := ex_run st_nosrc in
  r.1 = inl false /\ files r.2 = files st_nosrc /\ locked r.2 = locked st_nosrc /\
  trace r.2 = [Print (MsgSourceNotFound (SOURCE_LOGO ex_script))].
Proof.
  apply (missing_source_no_output px cpx rs ex_script st_nosrc).
  - reflexivity.
  - apply surjective_pairing.
Defined.

Lemma generate_logos_outcomes_witness :
  (exists s', ex_run st_nosrc = (inl false, s')) /\
  (exists e s', ex_run st_out_dir = (inr e, s')) /\
  (exists s', ex_run st_ready = (inl true, s')).
Proof.
  split; [|split].
  - apply (generate_logos_outcomes px cpx rs ex_script st_nosrc). reflexivity.
  - apply (proj1 (proj2 (proj2 (generate_logos_outcomes px cpx rs ex_script st_out_dir)))
      "logo-64.png" 64).
    + simpl. tauto.
    + vm_compute. discriminate.
    + right. reflexivity.
  - apply (generate_logos_outcomes px cpx rs ex_script st_ready). solve_ready.
Defined.

Lemma outputs_have_alpha_witness :
  to_rgba px cpx ex_src = convert px cpx ex_src M_RGBA /\
  exists img, lookup_entry (ex_run st_ready).2 (join (PUBLIC_DIR ex_script) "logo-512.png") =
      Some (File (Encoded PNG img)) /\
    img = resize px rs (to_rgba px cpx ex_src) (512, 512) LANCZOS /\
    mode px img = M_RGBA /\ has_alpha (mode px img) = true.
Proof.
  destruct (outputs_have_alpha px cpx rs ex_script st_ready (ex_run st_ready).2 PNG ex_src)
    as [Ha Hout].
  - reflexivity.
  - vm_compute. reflexivity.
  - split; [by apply Ha|]. apply Hout. simpl. tauto.
Defined.

Lemma legacy_ico_removed_after_outputs_witness :
  (ex_run st_ico).1 = inl true /\
  lookup_entry (ex_run st_ico).2 (OLD_ICO ex_script) = None /\
  (exists tr0, trace (ex_run st_ico).2 =
     Print (MsgDone 6 (PUBLIC_DIR ex_script)) :: Print MsgDeletedIco ::
     Unlink (OLD_ICO ex_script) :: loop_trace ex_script SIZES tr0) /\
  (exists s', ex_run st_ready = (inl true, s') /\
     lookup_entry s' (OLD_ICO ex_script) = None /\
     exists tr0, trace s' = Print (MsgDone 6 (PUBLIC_DIR ex_script)) :: loop_trace ex_script SIZES tr0).
Proof.
  split; [vm_compute; reflexivity|].
  destruct (legacy_ico_removed_after_outputs px cpx rs ex_script st_ico) as [H1 _].
  destruct (legacy_ico_removed_after_outputs px cpx rs ex_script st_ready) as [_ H2].
  split; [|split].
  - apply (H1 (ex_run st_ico).2); [vm_compute; discriminate|vm_compute; reflexivity].
  - apply (H1 (ex_run st_ico).2); [vm_compute; discriminate|vm_compute; reflexivity].
  - apply H2; [reflexivity|solve_ready].
Defined.

Lemma exit_status_ignores_result_witness :
  run_main px cpx rs ex_script st_nosrc = 0 /\ run_main px cpx rs ex_script st_ico_dir = 1.
Proof.
  split.
  - apply (proj1 (exit_status_ignores_result px cpx rs ex_script st_nosrc) false
      (ex_run st_nosrc).2).
    vm_compute. reflexivity.
  - apply (proj2 (exit_status_ignores_result px cpx rs ex_script st_ico_dir)
      (IsADirectoryError (OLD_ICO ex_script)) (ex_run st_ico_dir).2).
    vm_compute. reflexivity.
Defined.

Lemma legacy_unlink_failure_not_caught_witness :
  exists s', ex_run st_ico_locked = (inr (PermissionError (OLD_ICO ex_script)), s') /\
    (forall f sz, In (f, sz) SIZES ->
       lookup_entry s' (join (PUBLIC_DIR ex_script) f) =
         Some (out_entry px rs (to_rgba px cpx ex_src) sz)) /\
    lookup_entry s' (OLD_ICO ex_script) = lookup_entry st_ico_locked (OLD_ICO ex_script) /\
    exists tr0, trace s' = loop_trace ex_script SIZES tr0.
Proof.
  apply (legacy_unlink_failure_not_caught px cpx rs ex_script st_ico_locked PNG ex_src).
  - reflexivity.
  - left. reflexivity.
  - intros f sz Hin. simpl in Hin.
    repeat destruct Hin as [[= <- <-]|Hin]; try done;
      (split; [apply (bool_decide_unpack _); vm_compute; reflexivity
              | vm_compute; discriminate]).
  - right. split; [eexists; reflexivity|]. split; [|reflexivity].
    apply (bool_decide_unpack _). vm_compute. reflexivity.
Defined.

Lemma source_and_public_share_anchor_witness :
  SOURCE_LOGO ex_script = ["repo"; "logo.png"] /\ PUBLIC_DIR ex_script = ["repo"; "public"].
Proof.
  apply (source_and_public_share_anchor ex_script ["repo"] "scripts" "generate-logos.py").
  reflexivity.
Defined.

Lemma rerun_idempotent_witness :
  mkdir_parents px (PUBLIC_DIR ex_script) st_ready = (inl tt, st_ready) /\
  exists s2, ex_run (ex_run st_fresh).2 = (inl true, s2) /\
    locked s2 = locked (ex_run st_fresh).2 /\
    (forall q, lookup_entry s2 q = lookup_entry (ex_run st_fresh).2 q) /\
    exists tr0, trace s2 = Print (MsgDone 6 (PUBLIC_DIR ex_script)) :: loop_trace ex_script SIZES tr0.
Proof.
  destruct (rerun_idempotent px cpx rs ex_script) as [H1 H2]. split.
  - apply H1. reflexivity.
  - apply (H2 st_fresh). vm_compute. reflexivity.
Defined.

Lemma outputs_independent_of_table_order_witness :
  lookup_entry (ex_run st_ready).2 (join (PUBLIC_DIR ex_script) "favicon.png") =
    Some (File (Encoded PNG (resize px rs (to_rgba px cpx ex_src) (32, 32) LANCZOS))) /\
  exists r' s'', save_sizes px rs ex_script (to_rgba px cpx ex_src) (rev SIZES) [] st_ready =
      (inl r', s'') /\
    files s'' = files (save_sizes px rs ex_script (to_rgba px cpx ex_src) SIZES [] st_ready).2 /\
    locked s'' = locked (save_sizes px rs ex_script (to_rgba px cpx ex_src) SIZES [] st_ready).2.
Proof.
  destruct (outputs_independent_of_table_order px cpx rs ex_script) as [H1 H2]. split.
  - apply (H1 st_ready _ PNG ex_src); [reflexivity|vm_compute; reflexivity|simpl; tauto].
  - apply (H2 (rev SIZES) _ [] st_ready SIZES).
    + apply (bool_decide_unpack _). vm_compute. reflexivity.
    + vm_compute. reflexivity.
Defined.

(** C3: all six outputs are written, yet the call raises instead of
    returning [True]: removing a legacy [favicon.ico] that is a directory
    fails after the loop. *)
Lemma generate_logos_outcomes_counterexample :
  (ex_run st_ico_dir).1 = inr (IsADirectoryError (OLD_ICO ex_script)) /\
  forall f sz, In (f, sz) SIZES ->
    lookup_entry (ex_run st_ico_dir).2 (join (PUBLIC_DIR ex_script) f) =
      Some (out_entry px rs (to_rgba px cpx ex_src) sz).
Proof.
  split; [vm_compute; reflexivity|].
  intros f sz Hin. simpl in Hin.
  repeat destruct Hin as [[= <- <-]|Hin]; try done; vm_compute; reflexivity.
Qed.

(** C6: with the source missing, [generate_logos] returns [False] and the
    process still exits with status 0. *)
Lemma exit_status_ignores_result_counterexample :
  (ex_run st_nosrc).1 = inl false /\ run_main px cpx rs ex_script st_nosrc = 0.
Proof. split; vm_compute; reflexivity. Qed.

(** C7: a legacy [favicon.ico] that may not be deleted makes the call raise
    [PermissionError] after the six outputs were written. *)
Lemma legacy_unlink_failure_not_caught_counterexample :
  (ex_run st_ico_locked).1 = inr (PermissionError (OLD_ICO ex_script)).
Proof. vm_compute. reflexivity. Qed.

(** C8: with the script at [repo/scripts/generate-logos.py], the source and
    the output directory are both under [repo]: no reading of "two levels
    up" for the source together with "one level up" for the output
    directory holds. *)
Lemma source_and_public_share_anchor_counterexample :
  ~ (SOURCE_LOGO ex_script = join (Nat.iter 2 parent ex_script) "logo.png" /\
     PUBLIC_DIR ex_script = join (Nat.iter 1 parent ex_script) "public") /\
  ~ (SOURCE_LOGO ex_script = join (Nat.iter 3 parent ex_script) "logo.png" /\
     PUBLIC_DIR ex_script = join (Nat.iter 2 parent ex_script) "public").
Proof.
  split; intros [E1 E2]; vm_compute in E1, E2; first [discriminate E1 | discriminate E2].
Qed.

Lemma generate_logos_touches_only_outputs_witness :
  (ex_run st_ico_dir).1 = inr (IsADirectoryError (OLD_ICO ex_script)) /\
  run_effect px ex_script st_ico_dir (ex_run st_ico_dir).2.
Proof.
  split; [vm_compute; reflexivity|].
  apply (generate_logos_touches_only_outputs px cpx rs ex_script st_ico_dir
    (ex_run st_ico_dir).1).
  vm_compute. reflexivity.
Defined.

Lemma generate_logos_source_untouched_witness :
  (ex_run st_ico_locked).1 = inr (PermissionError (OLD_ICO ex_script)) /\
  lookup_entry (ex_run st_ico_locked).2 (SOURCE_LOGO ex_script) =
    lookup_entry st_ico_locked (SOURCE_LOGO ex_script).
Proof.
  split; [vm_compute; reflexivity|].
  apply (generate_logos_source_untouched px cpx rs ex_script st_ico_locked
    (ex_run st_ico_locked).1).
  vm_compute. reflexivity.
Defined.

Lemma generate_logos_no_encode_error_witness :
  (ex_run st_out_dir).1 = inr (IsADirectoryError (join (PUBLIC_DIR ex_script) "logo-64.png")) /\
  forall md fmt,
    IsADirectoryError (join (PUBLIC_DIR ex_script) "logo-64.png") <> EncodeError md fmt.
Proof.
  split; [vm_compute; reflexivity|].
  apply (generate_logos_no_encode_error px cpx rs ex_script st_out_dir _
    (ex_run st_out_dir).2).
  vm_compute. reflexivity.
Defined.

Lemma generate_logos_public_is_file_witness :
  ex_run st_public_file = (inr (FileExistsError (PUBLIC_DIR ex_script)), st_public_file).
Proof.
  apply (generate_logos_public_is_file px cpx rs ex_script st_public_file Garbage).
  - vm_compute. discriminate.
  - reflexivity.
Defined.

Lemma generate_logos_undecodable_source_witness :
  ex_run st_src_garbage =
    (inr (UnidentifiedImageError (SOURCE_LOGO ex_script)),
     log px st_src_garbage (Print (MsgLoading (SOURCE_LOGO ex_script)))).
Proof.
  apply (generate_logos_undecodable_source px cpx rs ex_script st_src_garbage).
  - reflexivity.
  - reflexivity.
Defined.

Lemma generate_logos_true_messages_witness :
  exists s1, mkdir_parents px (PUBLIC_DIR ex_script) st_ico = (inl tt, s1) /\
    trace (ex_run st_ico).2 =
      Print (MsgDone 6 (PUBLIC_DIR ex_script)) ::
      (if bool_decide (is_Some (lookup_entry st_ico (OLD_ICO ex_script)))
       then [Print MsgDeletedIco; Unlink (OLD_ICO ex_script)] else []) ++
      loop_trace ex_script SIZES
        (Print (MsgSourceSize 2048 2048 M_RGBA)
         :: Print (MsgLoading (SOURCE_LOGO ex_script)) :: trace s1).
Proof.
  apply (generate_logos_true_messages px cpx rs ex_script st_ico (ex_run st_ico).2 PNG ex_src).
  - reflexivity.
  - vm_compute. reflexivity.
Defined.

Lemma generate_logos_true_public_dir_witness :
  lookup_entry st_fresh (PUBLIC_DIR ex_script) = None /\
  lookup_entry (ex_run st_fresh).2 (PUBLIC_DIR ex_script) = Some Dir.
Proof.
  split; [reflexivity|].
  apply (generate_logos_true_public_dir px cpx rs ex_script st_fresh).
  vm_compute. reflexivity.
Defined.

Lemma save_sizes_stops_at_failure_witness :
  save_sizes px rs ex_script (to_rgba px cpx ex_src) SIZES [] st_out_locked =
    (inr (PermissionError (join (PUBLIC_DIR ex_script) "logo-128.png")),
     mkFS (write_outputs px rs ex_script (to_rgba px cpx ex_src)
             [("logo-32.png", 32); ("logo-64.png", 64)] (files st_out_locked))
          (locked st_out_locked)
          (loop_trace ex_script [("logo-32.png", 32); ("logo-64.png", 64)]
             (trace st_out_locked))).
Proof.
  apply (save_sizes_stops_at_failure px rs ex_script (to_rgba px cpx ex_src)
    [("logo-32.png", 32); ("logo-64.png", 64)] "logo-128.png" 128
    [("logo-192.png", 192); ("logo-512.png", 512); ("favicon.png", 32)] [] st_out_locked).
  - reflexivity.
  - split; [reflexivity|].
    intros f sz Hin. simpl in Hin.
    repeat destruct Hin as [[= <- <-]|Hin]; try done;
      (split; [apply (bool_decide_unpack _); vm_compute; reflexivity
              | vm_compute; discriminate]).
  - apply (bool_decide_unpack _). vm_compute. reflexivity.
  - vm_compute. discriminate.
Defined.

End GenerateLogos.
